(** * The popup controller of the WattDownload browser extension

    A shallow embedding of the four variants of [App.tsx] found in the
    repository (the popup's URL classifier [checkUrl] and its download
    orchestrator [handleDownload]), together with the part of the JavaScript
    run time they rely on: strings as sequences of UTF-16 code units, JSON
    values with truthiness and property access, the backtracking regular
    expression matcher, [decodeURIComponent], and [async] functions with
    [try]/[catch]/[finally] as a state-and-exception monad that records the
    observable effects (network requests, alerts, console output, downloads). *)

From Stdlib Require Import List String Ascii ZArith NArith Bool Lia DecimalString.
Import ListNotations.

Set Implicit Arguments.
Local Open Scope N_scope.

(* ================================================================== *)
(** ** JavaScript strings *)

Module Js.

(** A JavaScript string is a sequence of 16-bit code units. *)
Definition char := N.
Definition jsstring := list char.

(** String literals of the source are written [js "..."]. *)
Definition js (s : string) : jsstring :=
  List.map N_of_ascii (list_ascii_of_string s).

Fixpoint str_eqb (a b : jsstring) : bool :=
  match a, b with
  | [], [] => true
  | x :: a', y :: b' => N.eqb x y && str_eqb a' b'
  | _, _ => false
  end.

Fixpoint starts_with (p s : jsstring) : bool :=
  match p, s with
  | [], _ => true
  | x :: p', y :: s' => N.eqb x y && starts_with p' s'
  | _ :: _, [] => false
  end.

(** [String.prototype.includes]: does [p] occur somewhere in [s]? *)
Fixpoint includes (s p : jsstring) : bool :=
  starts_with p s ||
  match s with
  | [] => false
  | _ :: s' => includes s' p
  end.

(** *** JSON values, as produced by [response.json()] *)

(** [JNum] carries the integer-valued numbers (exact below 2^53); the code
    only tests numbers for truthiness and prints them.  [JObj] lists the own
    properties of a parsed object, whose keys are distinct. *)
#[warnings="-register-all"]
Inductive JsVal :=
| JUndefined
| JNull
| JBool (b : bool)
| JNum (z : Z)
| JStr (s : jsstring)
| JArr (l : list JsVal)
| JObj (fields : list (jsstring * JsVal)).

(** ToBoolean. *)
Definition truthy (v : JsVal) : bool :=
  match v with
  | JUndefined | JNull => false
  | JBool b => b
  | JNum z => negb (Z.eqb z 0)
  | JStr s => match s with [] => false | _ => true end
  | JArr _ | JObj _ => true
  end.

Fixpoint lookup_field (k : jsstring) (fs : list (jsstring * JsVal)) : JsVal :=
  match fs with
  | [] => JUndefined
  | (k', v) :: fs' => if str_eqb k k' then v else lookup_field k fs'
  end.

(** [v.k] for a value that is neither [null] nor [undefined], and a key that
    no prototype defines ([groupId], [error], [title]). *)
Definition get_prop (v : JsVal) (k : jsstring) : JsVal :=
  match v with
  | JObj fs => lookup_field k fs
  | _ => JUndefined
  end.

(** [v?.k] *)
Definition opt_prop (v : JsVal) (k : jsstring) : JsVal :=
  match v with
  | JUndefined | JNull => JUndefined
  | _ => get_prop v k
  end.

(** [a || b] and [a && b] on values. *)
Definition js_or (a b : JsVal) : JsVal := if truthy a then a else b.
Definition js_and (a b : JsVal) : JsVal := if truthy a then b else a.

Definition num_to_string (z : Z) : jsstring :=
  js (NilZero.string_of_int (Z.to_int z)).

Fixpoint join (sep : jsstring) (l : list jsstring) : jsstring :=
  match l with
  | [] => []
  | [x] => x
  | x :: l' => x ++ sep ++ join sep l'
  end.

(** ToString, as applied by template literals [`${v}`]. *)
Fixpoint to_string (v : JsVal) : jsstring :=
  match v with
  | JUndefined => js "undefined"
  | JNull => js "null"
  | JBool true => js "true"
  | JBool false => js "false"
  | JNum z => num_to_string z
  | JStr s => s
  | JArr l =>
      join (js ",")
        (List.map (fun x => match x with
                            | JUndefined | JNull => []
                            | _ => to_string x
                            end) l)
  | JObj _ => js "[object Object]"
  end.

(** [num_to_string] writes out every digit, which is what JavaScript does
    for the safe integers, the numbers below 2^53 in size.  Larger numbers
    JavaScript prints by the shortest digits that read back as the same
    double, and from 1e21 on with an exponent; there [num_to_string] is not
    ToString.  [safe_numbers v] holds when printing [v] prints safe integers
    only. *)
Fixpoint safe_numbers (v : JsVal) : bool :=
  match v with
  | JNum z => (Z.abs z <? 2 ^ 53)%Z
  | JArr l => forallb safe_numbers l
  | _ => true
  end.

End Js.

(* ================================================================== *)
(** ** Regular expressions *)

Module RegExp.
Import Js.

(** The fragment of the pattern language the source uses.  Quantifiers [*]
    and [+] are only ever applied to one-character atoms ([\d], [\s], [.],
    negated classes), [?] to a character or a group. *)
Inductive regex :=
| Eps
| Bol                          (* ^ *)
| Lit (a : char)               (* a literal character *)
| Cls (p : char -> bool)       (* a character class *)
| Cat (r1 r2 : regex)
| Opt (r : regex)              (* r?  (greedy) *)
| Star (p : char -> bool)      (* [p]* (greedy) *)
| Plus (p : char -> bool)      (* [p]+ (greedy) *)
| Group (i : nat) (r : regex). (* the i-th capturing group *)

Fixpoint lits (l : jsstring) : regex :=
  match l with
  | [] => Eps
  | a :: l' => Cat (Lit a) (lits l')
  end.

(** A pattern given as a literal string. *)
Definition Str (s : string) : regex := lits (js s).

(** Character classes. *)
Definition is_digit (c : char) : bool := (48 <=? c) && (c <=? 57).
Definition is_line_terminator (c : char) : bool :=
  (c =? 10) || (c =? 13) || (c =? 8232) || (c =? 8233).
Definition dot (c : char) : bool := negb (is_line_terminator c).
(** [\s]: WhiteSpace and LineTerminator code units. *)
Definition is_space (c : char) : bool :=
  ((9 <=? c) && (c <=? 13)) || (c =? 32) || (c =? 160) || (c =? 5760)
  || ((8192 <=? c) && (c <=? 8202)) || (c =? 8232) || (c =? 8233)
  || (c =? 8239) || (c =? 8287) || (c =? 12288) || (c =? 65279).
Definition not_char (a : char) (c : char) : bool := negb (c =? a).

Definition ascii_upper (c : char) : char :=
  if (97 <=? c) && (c <=? 122) then c - 32 else c.

(** Comparison of an input character with a pattern character that is ASCII:
    under the [i] flag a code unit above 127 never canonicalizes to an ASCII
    one, so only the two ASCII cases of a letter match it. *)
Definition lit_eq (icase : bool) (a x : char) : bool :=
  if icase then ascii_upper x =? ascii_upper a else x =? a.

(** Captures: the substring of each group that took part in the match. *)
Definition Caps := list (nat * jsstring).

Fixpoint cap (i : nat) (c : Caps) : option jsstring :=
  match c with
  | [] => None
  | (j, s) :: c' => if Nat.eqb i j then Some s else cap i c'
  end.

Definition set_cap (i : nat) (s : jsstring) (c : Caps) : Caps := (i, s) :: c.

(** A continuation receives the number of characters consumed so far, the
    rest of the input and the captures. *)
Definition Cont := nat -> jsstring -> Caps -> option Caps.

Fixpoint star (p : char -> bool) (n : nat) (s : jsstring) (c : Caps)
    (k : Cont) : option Caps :=
  match s with
  | x :: s' =>
      if p x then
        match star p (S n) s' c k with
        | Some r => Some r
        | None => k n s c
        end
      else k n s c
  | [] => k n [] c
  end.

(** The backtracking matcher: [m icase r n s c k] matches [r] at the head of
    [s] (which starts at index [n] of the input) and then runs [k]; the first
    alternative for which [k] succeeds wins. *)
Fixpoint m (icase : bool) (r : regex) (n : nat) (s : jsstring) (c : Caps)
    (k : Cont) : option Caps :=
  match r with
  | Eps => k n s c
  | Bol => if Nat.eqb n 0 then k n s c else None
  | Lit a =>
      match s with
      | x :: s' => if lit_eq icase a x then k (S n) s' c else None
      | [] => None
      end
  | Cls p =>
      match s with
      | x :: s' => if p x then k (S n) s' c else None
      | [] => None
      end
  | Cat r1 r2 => m icase r1 n s c (fun n' s' c' => m icase r2 n' s' c' k)
  | Opt r' =>
      match m icase r' n s c k with
      | Some res => Some res
      | None => k n s c
      end
  | Star p => star p n s c k
  | Plus p =>
      match s with
      | x :: s' => if p x then star p (S n) s' c k else None
      | [] => None
      end
  | Group i r' =>
      m icase r' n s c
        (fun n' s' c' => k n' s' (set_cap i (firstn (n' - n) s) c'))
  end.

Record RegExp := { source : regex; ignoreCase : bool }.

(** Try the pattern at every start index, from the left. *)
Fixpoint search (icase : bool) (r : regex) (n : nat) (s : jsstring)
    : option Caps :=
  match m icase r n s [] (fun n' _ c => Some (set_cap 0 (firstn (n' - n) s) c)) with
  | Some c => Some c
  | None =>
      match s with
      | [] => None
      | _ :: s' => search icase r (S n) s'
      end
  end.

(** [s.match(re)] for a pattern without the [g] flag: [None] is [null]. *)
Definition str_match (s : jsstring) (re : RegExp) : option Caps :=
  search (ignoreCase re) (source re) 0 s.

(** [match && match[i]] as a condition: the capture when it is a non-empty
    string. *)
Definition truthy_cap (mt : option Caps) (i : nat) : option jsstring :=
  match mt with
  | None => None
  | Some c =>
      match cap i c with
      | Some (x :: s) => Some (x :: s)
      | _ => None
      end
  end.

(** [s.replace(/[class]/g, by)] for a one-character class. *)
Definition replace_all (p : char -> bool) (by_ : jsstring) (s : jsstring)
    : jsstring :=
  flat_map (fun x => if p x then by_ else [x]) s.

End RegExp.

(* ================================================================== *)
(** ** [decodeURIComponent] *)

Module URI.
Import Js.

Definition hexval (c : char) : option N :=
  if (48 <=? c) && (c <=? 57) then Some (c - 48)
  else if (65 <=? c) && (c <=? 70) then Some (c - 55)
  else if (97 <=? c) && (c <=? 102) then Some (c - 87)
  else None.

(** The input cut into plain code units and percent-escaped octets; [None]
    when a [%] is not followed by two hexadecimal digits (a URIError). *)
Inductive token := Raw (c : char) | Octet (b : N).

Fixpoint tokens (s : jsstring) : option (list token) :=
  match s with
  | [] => Some []
  | c :: s1 =>
      if c =? 37 then
        match s1 with
        | h :: l :: s2 =>
            match hexval h, hexval l with
            | Some a, Some b => option_map (cons (Octet (16 * a + b))) (tokens s2)
            | _, _ => None
            end
        | _ => None
        end
      else option_map (cons (Raw c)) (tokens s1)
  end.

Definition is_cont (b : N) : bool := (128 <=? b) && (b <=? 191).

(** UTF-16 encoding of a code point. *)
Definition utf16 (v : N) : jsstring :=
  if v <? 65536 then [v]
  else [55296 + (v - 65536) / 1024; 56320 + (v - 65536) mod 1024].

(** Octets above 127 must form the UTF-8 encoding of one code point: no
    overlong form, no surrogate, nothing above U+10FFFF. *)
Fixpoint decode_tokens (ts : list token) : option jsstring :=
  match ts with
  | [] => Some []
  | Raw c :: ts' => option_map (cons c) (decode_tokens ts')
  | Octet b :: ts' =>
      if b <? 128 then option_map (cons b) (decode_tokens ts')
      else if (192 <=? b) && (b <=? 223) then
        match ts' with
        | Octet b1 :: ts2 =>
            let v := (b - 192) * 64 + (b1 - 128) in
            if is_cont b1 && (128 <=? v)
            then option_map (app (utf16 v)) (decode_tokens ts2)
            else None
        | _ => None
        end
      else if (224 <=? b) && (b <=? 239) then
        match ts' with
        | Octet b1 :: Octet b2 :: ts3 =>
            let v := (b - 224) * 4096 + (b1 - 128) * 64 + (b2 - 128) in
            if is_cont b1 && is_cont b2 && (2048 <=? v)
               && negb ((55296 <=? v) && (v <=? 57343))
            then option_map (app (utf16 v)) (decode_tokens ts3)
            else None
        | _ => None
        end
      else if (240 <=? b) && (b <=? 247) then
        match ts' with
        | Octet b1 :: Octet b2 :: Octet b3 :: ts4 =>
            let v := (b - 240) * 262144 + (b1 - 128) * 4096
                     + (b2 - 128) * 64 + (b3 - 128) in
            if is_cont b1 && is_cont b2 && is_cont b3
               && (65536 <=? v) && (v <=? 1114111)
            then option_map (app (utf16 v)) (decode_tokens ts4)
            else None
        | _ => None
        end
      else None
  end.

(** [None] stands for the URIError the function throws. *)
Definition decodeURIComponent (s : jsstring) : option jsstring :=
  match tokens s with
  | Some ts => decode_tokens ts
  | None => None
  end.

End URI.

(* ================================================================== *)
(** ** The popup's world, state and effects *)

Module Popup.
Import Js RegExp.

(** A thrown value or the reason of a rejected promise. *)
Record Exn := { exn_name : jsstring; exn_message : jsstring }.

(** [new Error(msg)] *)
Definition Error (msg : jsstring) : Exn :=
  {| exn_name := js "Error"; exn_message := msg |}.
Definition TypeError (msg : jsstring) : Exn :=
  {| exn_name := js "TypeError"; exn_message := msg |}.

Record Tab := { tab_url : option jsstring }.
Record Cookie := { cookie_name : jsstring; cookie_value : jsstring }.
Definition Blob := list N.

(** What the code reads of a [Response]; [inl] is a rejected promise. *)
Record Response := {
  status : N;
  statusText : jsstring;
  content_disposition : option jsstring; (* headers.get('Content-Disposition') *)
  json : Exn + JsVal;
  text : Exn + jsstring;
  blob : Exn + Blob }.

Definition ok (r : Response) : bool := (200 <=? status r) && (status r <=? 299).

Inductive Method := GET | POST.

(** The JSON body of the backend request.  [body_storyId] is the operand of
    [Number(...)]; the conversion to a double is left to the reader. *)
Record Body := {
  body_storyId : JsVal;
  body_isEmbedImages : bool;
  body_cookies : list Cookie }.

Record Request := {
  req_url : jsstring;
  req_method : Method;
  req_headers : list (jsstring * jsstring);
  req_body : option Body }.

(** Everything outside the popup.  [chrome_tabs = None]: the [chrome.tabs]
    API is absent (development build). *)
Record World := {
  chrome_tabs : option (Exn + list Tab);
  userAgent : jsstring;
  fetch_result : Request -> Exn + Response;
  cookies_getAll : jsstring -> Exn + list Cookie;
  objectURL : Blob -> jsstring }.

Inductive LogArg := LStr (s : jsstring) | LVal (v : JsVal) | LExn (e : Exn).
Inductive Level := Log | Warn | Err.

(** Observable effects, in program order.  [ChromeDownload] carries what the
    callback passed to [chrome.downloads.download] does when the browser
    calls it, which is after the caller has returned, if at all. *)
#[warnings="-register-all"]
Inductive Effect :=
| Console (lvl : Level) (args : list LogArg)
| TabsQuery
| Fetch (req : Request)
| CookiesGetAll (domain : jsstring)
| Alert (msg : jsstring)
| CreateObjectURL (b : Blob)
| AnchorClick (href download : jsstring)
| RevokeObjectURL (url : jsstring)
| ChromeDownload (url filename : jsstring) (callback : list Effect).

(** The four [useState] cells.  [isValidPage = None] is [null]. *)
Record PopupState := {
  isValidPage : option bool;
  storyId : JsVal;
  embedImages : bool;
  isLoading : bool }.

Definition initial : PopupState :=
  {| isValidPage := None; storyId := JNull; embedImages := true;
     isLoading := false |}.

(** *** Async functions: state, exceptions and an effect trace *)

Inductive Res (A : Type) := Ok (a : A) | Throw (e : Exn).
Arguments Ok {A} a.
Arguments Throw {A} e.

Definition M (A : Type) := PopupState -> Res A * PopupState * list Effect.

Definition ret {A} (a : A) : M A := fun st => (Ok a, st, []).
Definition throw {A} (e : Exn) : M A := fun st => (Throw e, st, []).

Definition bind {A B} (x : M A) (f : A -> M B) : M B :=
  fun st =>
    match x st with
    | (Ok a, st1, tr1) =>
        match f a st1 with
        | (r, st2, tr2) => (r, st2, tr1 ++ tr2)
        end
    | (Throw e, st1, tr1) => (Throw e, st1, tr1)
    end.

Notation "x <- c1 ;; c2" := (bind c1 (fun x => c2))
  (at level 61, c1 at next level, right associativity).
Notation "c1 ;; c2" := (bind c1 (fun _ => c2))
  (at level 61, right associativity).

Definition emit (e : Effect) : M unit := fun st => (Ok tt, st, [e]).

(** [await p] for a promise that settles as [p]. *)
Definition await {A} (p : Exn + A) : M A :=
  match p with
  | inr a => ret a
  | inl e => throw e
  end.

(** [p.catch(() => d)] *)
Definition catch_default {A} (p : Exn + A) (d : A) : Exn + A :=
  match p with
  | inr a => inr a
  | inl _ => inr d
  end.

(** [try { body } catch (e) { handler }] *)
Definition try_catch {A} (body : M A) (handler : Exn -> M A) : M A :=
  fun st =>
    match body st with
    | (Ok a, st1, tr1) => (Ok a, st1, tr1)
    | (Throw e, st1, tr1) =>
        match handler e st1 with
        | (r, st2, tr2) => (r, st2, tr1 ++ tr2)
        end
    end.

(** [try { body } finally { fin }]: [fin] runs on every exit of [body]. *)
Definition try_finally {A} (body : M A) (fin : M unit) : M A :=
  fun st =>
    match body st with
    | (r, st1, tr1) =>
        match fin st1 with
        | (Ok _, st2, tr2) => (r, st2, tr1 ++ tr2)
        | (Throw e, st2, tr2) => (Throw e, st2, tr1 ++ tr2)
        end
    end.

Definition setIsValidPage (b : bool) : M unit :=
  fun st => (Ok tt, {| isValidPage := Some b; storyId := storyId st;
                       embedImages := embedImages st;
                       isLoading := isLoading st |}, []).

Definition setStoryId (v : JsVal) : M unit :=
  fun st => (Ok tt, {| isValidPage := isValidPage st; storyId := v;
                       embedImages := embedImages st;
                       isLoading := isLoading st |}, []).

Definition setEmbedImages (b : bool) : M unit :=
  fun st => (Ok tt, {| isValidPage := isValidPage st; storyId := storyId st;
                       embedImages := b; isLoading := isLoading st |}, []).

Definition setIsLoading (b : bool) : M unit :=
  fun st => (Ok tt, {| isValidPage := isValidPage st; storyId := storyId st;
                       embedImages := embedImages st; isLoading := b |}, []).

Definition console (lvl : Level) (args : list LogArg) : M unit :=
  emit (Console lvl args).
Definition alert (msg : jsstring) : M unit := emit (Alert msg).

Definition fetch (w : World) (req : Request) : M Response :=
  emit (Fetch req) ;; await (fetch_result w req).

Definition chrome_cookies_getAll (w : World) (domain : jsstring)
    : M (list Cookie) :=
  emit (CookiesGetAll domain) ;; await (cookies_getAll w domain).

Definition createObjectURL (w : World) (b : Blob) : M jsstring :=
  emit (CreateObjectURL b) ;; ret (objectURL w b).

(** Projections of a finished run. *)
Definition result_of {A} (r : Res A * PopupState * list Effect) : Res A :=
  fst (fst r).
Definition final {A} (r : Res A * PopupState * list Effect) : PopupState :=
  snd (fst r).
Definition trace {A} (r : Res A * PopupState * list Effect) : list Effect :=
  snd r.

(** The requests sent over the network during a run. *)
Fixpoint requests (tr : list Effect) : list Request :=
  match tr with
  | [] => []
  | Fetch req :: tr' => req :: requests tr'
  | _ :: tr' => requests tr'
  end.

Fixpoint alerts (tr : list Effect) : list jsstring :=
  match tr with
  | [] => []
  | Alert msg :: tr' => msg :: alerts tr'
  | _ :: tr' => alerts tr'
  end.

(** File names handed to the browser for saving. *)
Fixpoint saved_as (tr : list Effect) : list jsstring :=
  match tr with
  | [] => []
  | AnchorClick _ f :: tr' => f :: saved_as tr'
  | ChromeDownload _ f _ :: tr' => f :: saved_as tr'
  | _ :: tr' => saved_as tr'
  end.

(** [tabs[0]?.url ?? ''] *)
Definition first_tab_url (tabs : list Tab) : jsstring :=
  match tabs with
  | t :: _ => match tab_url t with Some u => u | None => [] end
  | [] => []
  end.

Definition get_request (url : jsstring) (hs : list (jsstring * jsstring))
    : Request :=
  {| req_url := url; req_method := GET; req_headers := hs; req_body := None |}.

Definition post_json (url : jsstring) (b : Body) : Request :=
  {| req_url := url; req_method := POST;
     req_headers := [(js "Content-Type", js "application/json")];
     req_body := Some b |}.

Infix "+++" := Cat (at level 60, right associativity).

(** *** The URL classifier of the variants with chapter support *)

(** [/^https?:\/\/(?:www\.)?wattpad\.com\/story\/(\d+)-.*/] *)
Definition wattpadStoryRegex : RegExp :=
  {| source := Bol +++ Str "http" +++ Opt (Str "s") +++ Str "://"
               +++ Opt (Str "www.") +++ Str "wattpad.com/story/"
               +++ Group 1 (Plus is_digit) +++ Str "-" +++ Star dot;
     ignoreCase := false |}.

(** [/^https?:\/\/(?:www\.)?wattpad\.com\/(\d+)/] *)
Definition wattpadStoryPartRegex : RegExp :=
  {| source := Bol +++ Str "http" +++ Opt (Str "s") +++ Str "://"
               +++ Opt (Str "www.") +++ Str "wattpad.com/"
               +++ Group 1 (Plus is_digit);
     ignoreCase := false |}.

(** The address of the chapter-metadata lookup. *)
Definition story_part_endpoint (partId : jsstring) : jsstring :=
  js "https://www.wattpad.com/api/v3/story_parts/" ++ partId
  ++ js "?fields=groupId".

(** [checkUrl], shared by the three variants that resolve chapters; they
    differ in the name [api] they print for the remote service. *)
Definition checkUrl_with (api : jsstring) (w : World) : M unit :=
  match chrome_tabs w with
  | Some query =>
      emit TabsQuery ;;
      tabs <- await query ;;
      let url := first_tab_url tabs in
      let storyMatch := str_match url wattpadStoryRegex in
      let storyPartMatch := str_match url wattpadStoryPartRegex in
      match truthy_cap storyMatch 1 with
      | Some directStoryId =>
          console Log [LStr (9989 :: js " Direct Story URL found. Story ID:");
                       LStr directStoryId] ;;
          setIsValidPage true ;;
          setStoryId (JStr directStoryId)
      | None =>
          match truthy_cap storyPartMatch 1 with
          | Some partId =>
              console Log [LStr (55357 :: 56589 ::
                                 js " Story Part URL found. Extracted Part ID:");
                           LStr partId] ;;
              let requestUrl := story_part_endpoint partId in
              console Log [LStr (10145 :: 65039 ::
                                 js " Making API Request to URL:");
                           LStr requestUrl] ;;
              try_catch
                (response <- fetch w (get_request requestUrl
                                        [(js "User-Agent", userAgent w)]) ;;
                 (if negb (ok response) then
                    errorBody <- await (catch_default (text response)
                                          (js "Could not read error body.")) ;;
                    console Err [LStr (api ++ js " API failed with status: "
                                       ++ num_to_string (Z.of_N (status response)))] ;;
                    console Err [LStr (api ++ js " API Error Response Body:");
                                 LStr errorBody] ;;
                    throw (Error (api ++ js " API failed with status: "
                                  ++ num_to_string (Z.of_N (status response))
                                  ++ js "."))
                  else ret tt) ;;
                 data <- await (json response) ;;
                 console Log [LStr (api ++ js " API Success Response:");
                              LVal data] ;;
                 if truthy (js_and data (get_prop data (js "groupId"))) then
                   setIsValidPage true ;;
                   setStoryId (get_prop data (js "groupId"))
                 else
                   setIsValidPage false)
                (fun error =>
                   console Err [LStr (js "Failed to resolve story part ID:");
                                LExn error] ;;
                   setIsValidPage false)
          | None => setIsValidPage false
          end
      end
  | None =>
      setIsValidPage true ;;
      setStoryId (JStr (js "123456789"))
  end.

(** *** The view *)

Inductive View :=
| Loading
| FunctionalUI (heading : jsstring) (toggle_checked toggle_disabled : bool)
    (button_disabled : bool) (button_label : jsstring)
| InvalidPageUI (heading : jsstring).

(** The JSX of the variants: [toggle_locks] tells whether the checkbox
    carries [disabled={isLoading}]. *)
Definition render_with (title invalid_title : jsstring) (toggle_locks : bool)
    (st : PopupState) : View :=
  match isValidPage st with
  | None => Loading
  | Some true =>
      FunctionalUI title (embedImages st) (toggle_locks && isLoading st)
        (isLoading st)
        (if isLoading st then js "Processing..." else js "Download Story")
  | Some false => InvalidPageUI invalid_title
  end.

(** A click on the button of the rendered view: the browser delivers it to
    [onClick] only when the button exists and is not disabled.  The handler
    closes over the [storyId] and [embedImages] of that render. *)
Definition click_button (render : PopupState -> View)
    (onClick : JsVal -> bool -> M unit) : M unit :=
  fun st =>
    match render st with
    | FunctionalUI _ _ _ disabled _ =>
        if disabled then ret tt st
        else onClick (storyId st) (embedImages st) st
    | _ => ret tt st
    end.

(** A click on the checkbox: [onChange] flips the flag of that render. *)
Definition click_toggle (render : PopupState -> View) : M unit :=
  fun st =>
    match render st with
    | FunctionalUI _ checked disabled _ _ =>
        if disabled then ret tt st else setEmbedImages (negb checked) st
    | _ => ret tt st
    end.

End Popup.

(* ================================================================== *)
(** ** Variant with Content-Disposition parsing ([src/unnamed/part_000]) *)

Module Part000.
Import Js RegExp Popup.

Definition checkUrl : World -> M unit := checkUrl_with (js "WP").

(** [/filename\*\s*=\s*UTF-8''([^;]+)/i] *)
Definition utf8FilenameRegex : RegExp :=
  {| source := Str "filename*" +++ Star is_space +++ Str "=" +++ Star is_space
               +++ Str "UTF-8''" +++ Group 1 (Plus (not_char 59));
     ignoreCase := true |}.

(** [/filename=Q?([^Q]+)Q?/], where Q stands for the double quote
    (code unit 34). *)
Definition plainFilenameRegex : RegExp :=
  {| source := Str "filename=" +++ Opt (Lit 34) +++ Group 1 (Plus (not_char 34))
               +++ Opt (Lit 34);
     ignoreCase := false |}.

(** The file name read off the [Content-Disposition] header; [None] is
    [null]. *)
Definition filename_of_disposition (disposition : option jsstring)
    : option jsstring :=
  match disposition with
  | Some (x :: d) =>
      let utf8Match := str_match (x :: d) utf8FilenameRegex in
      match truthy_cap utf8Match 1 with
      | Some enc =>
          match URI.decodeURIComponent enc with
          | Some f => Some f
          | None => Some enc
          end
      | None =>
          let mt := str_match (x :: d) plainFilenameRegex in
          match truthy_cap mt 1 with
          | Some f => Some f
          | None => None
          end
      end
  | _ => None
  end.

(** [if (!filename) filename = `story-${storyId}.epub`] *)
Definition filename_or_fallback (filename : option jsstring) (storyId : JsVal)
    : jsstring :=
  match filename with
  | Some (x :: f) => x :: f
  | _ => js "story-" ++ to_string storyId ++ js ".epub"
  end.

Definition apiEndpoint : jsstring :=
  js "https://crx-0-2-6-novn.shuttle.app/generate-epub".

Definition handleDownload (w : World) (storyId : JsVal) (embedImages : bool)
    : M unit :=
  setIsLoading true ;;
  try_finally
    (try_catch
       (cookies <- chrome_cookies_getAll w (js "wattpad.com") ;;
        response <- fetch w (post_json apiEndpoint
                               {| body_storyId := storyId;
                                  body_isEmbedImages := embedImages;
                                  body_cookies := cookies |}) ;;
        (if negb (ok response) then
           errorData <- await (catch_default (json response) JNull) ;;
           throw (Error (js "API Error: "
                         ++ to_string (js_or (opt_prop errorData (js "error"))
                                             (JStr (statusText response)))))
         else ret tt) ;;
        blob <- await (blob response) ;;
        url <- createObjectURL w blob ;;
        let disposition := content_disposition response in
        let filename :=
          filename_or_fallback (filename_of_disposition disposition) storyId in
        emit (AnchorClick url filename) ;;
        emit (RevokeObjectURL url))
       (fun error =>
          console Err [LStr (js "Download failed:"); LExn error] ;;
          alert (js "An error occurred during the download.")))
    (setIsLoading false).

Definition render : PopupState -> View :=
  render_with (js "WattDownload") (js "Not a WP Story") true.

(** The user presses the download button. *)
Definition clickDownload (w : World) : M unit :=
  click_button render (handleDownload w).

End Part000.

(* ================================================================== *)
(** ** Variant that fetches the title ([src/unnamed/part_001]) *)

Module Part001.
Import Js RegExp Popup.

Definition checkUrl : World -> M unit := checkUrl_with (js "Wattpad").

(** The address of the story-metadata lookup. *)
Definition story_endpoint (storyId : JsVal) : jsstring :=
  js "https://www.wattpad.com/api/v3/stories/" ++ to_string storyId
  ++ js "?fields=title".

(** The class of the nine characters backslash, slash, colon, asterisk,
    question mark, double quote, less-than, greater-than and bar. *)
Definition unsafe_char (c : char) : bool :=
  (c =? 92) || (c =? 47) || (c =? 58) || (c =? 42) || (c =? 63)
  || (c =? 34) || (c =? 60) || (c =? 62) || (c =? 124).

(** [title.replace(/[class]/g, '_')] for that class; a title that is not a
    string has no [replace] method. *)
Definition sanitize (title : JsVal) : M jsstring :=
  match title with
  | JStr t => ret (replace_all unsafe_char (js "_") t)
  | _ => throw (TypeError (js "title.replace is not a function"))
  end.

Definition apiEndpoint : jsstring :=
  js "https://modest-chebyshev-za7x.shuttle.app/generate-epub".

Definition handleDownload (w : World) (storyId : JsVal) (embedImages : bool)
    : M unit :=
  setIsLoading true ;;
  try_finally
    (try_catch
       (metaResponse <- fetch w (get_request (story_endpoint storyId) []) ;;
        (if negb (ok metaResponse) then
           console Warn [LStr (js "Could not fetch story title from Wattpad API. Using story ID as fallback.")]
         else ret tt) ;;
        metaData <- await (catch_default (json metaResponse) (JObj [])) ;;
        let title := js_or (opt_prop metaData (js "title"))
                           (JStr (js "story_" ++ to_string storyId)) in
        sanitizedTitle <- sanitize title ;;
        let filename := sanitizedTitle ++ js ".epub" in
        cookies <- chrome_cookies_getAll w (js "wattpad.com") ;;
        response <- fetch w (post_json apiEndpoint
                               {| body_storyId := storyId;
                                  body_isEmbedImages := embedImages;
                                  body_cookies := cookies |}) ;;
        (if negb (ok response) then
           errorData <- await (catch_default (json response) JNull) ;;
           throw (Error (js "API Error: "
                         ++ to_string (js_or (opt_prop errorData (js "error"))
                                             (JStr (statusText response)))))
         else ret tt) ;;
        blob <- await (blob response) ;;
        url <- createObjectURL w blob ;;
        emit (AnchorClick url filename) ;;
        emit (RevokeObjectURL url))
       (fun error =>
          console Err [LStr (js "Download failed:"); LExn error] ;;
          alert (js "An error occurred during the download.")))
    (setIsLoading false).

Definition render : PopupState -> View :=
  render_with (js "Wattpad Downloader") (js "Not a Wattpad Story") true.

Definition clickDownload (w : World) : M unit :=
  click_button render (handleDownload w).

End Part001.

(* ================================================================== *)
(** ** Variants that name the file themselves
       ([src/unnamed/part_002] and
        [src/chromium-extension/src/popup/App.tsx]) *)

(** [handleDownload] of both, up to the backend address. *)
Module Native.
Import Js RegExp Popup.

Definition handleDownload_at (apiEndpoint : jsstring) (w : World)
    (storyId : JsVal) (embedImages : bool) : M unit :=
  setIsLoading true ;;
  try_finally
    (try_catch
       (cookies <- chrome_cookies_getAll w (js "wattpad.com") ;;
        response <- fetch w (post_json apiEndpoint
                               {| body_storyId := storyId;
                                  body_isEmbedImages := embedImages;
                                  body_cookies := cookies |}) ;;
        (if negb (ok response) then
           errorData <- await (catch_default (json response) JNull) ;;
           let errorMessage := js_or (opt_prop errorData (js "error"))
                                     (JStr (statusText response)) in
           throw (Error (js "API Error: " ++ to_string errorMessage))
         else ret tt) ;;
        blob <- await (blob response) ;;
        url <- createObjectURL w blob ;;
        let filename := js "story_" ++ to_string storyId ++ js ".epub" in
        (* the second argument, [() => { URL.revokeObjectURL(url) }], is
           left with the browser: it is not run by [handleDownload] *)
        emit (ChromeDownload url filename [RevokeObjectURL url]))
       (fun error =>
          console Err [LStr (js "Download failed:"); LExn error] ;;
          alert (js "An error occurred during the download.")))
    (setIsLoading false).

Definition render : PopupState -> View :=
  render_with (js "Wattpad Downloader") (js "Not a Wattpad Story") false.

End Native.

Module Part002.
Import Js RegExp Popup.

Definition checkUrl : World -> M unit := checkUrl_with (js "Wattpad").

Definition apiEndpoint : jsstring :=
  js "https://YOUR_BACKEND_DOMAIN_HERE/generate-epub".

Definition handleDownload : World -> JsVal -> bool -> M unit :=
  Native.handleDownload_at apiEndpoint.

Definition render : PopupState -> View := Native.render.

Definition clickDownload (w : World) : M unit :=
  click_button render (handleDownload w).

End Part002.

Module AppTsx.
Import Js RegExp Popup.

(** [/^https?:\/\/(www\.)?wattpad\.com\/story\/(\d+)/] *)
Definition wattpadStoryRegex : RegExp :=
  {| source := Bol +++ Str "http" +++ Opt (Str "s") +++ Str "://"
               +++ Opt (Group 1 (Str "www.")) +++ Str "wattpad.com/story/"
               +++ Group 2 (Plus is_digit);
     ignoreCase := false |}.

(** The body of the mount effect: this variant knows story pages only and
    never calls the network to classify. *)
Definition checkUrl (w : World) : M unit :=
  match chrome_tabs w with
  | Some query =>
      emit TabsQuery ;;
      tabs <- await query ;;
      let url := first_tab_url tabs in
      let mt := str_match url wattpadStoryRegex in
      match truthy_cap mt 2 with
      | Some id =>
          setIsValidPage true ;;
          setStoryId (JStr id)
      | None => setIsValidPage false
      end
  | None =>
      setIsValidPage true ;;
      setStoryId (JStr (js "123456789"))
  end.

Definition apiEndpoint : jsstring :=
  js "https://YOUR_BACKEND_URL_HERE/generate-epub".

Definition handleDownload : World -> JsVal -> bool -> M unit :=
  Native.handleDownload_at apiEndpoint.

Definition render : PopupState -> View := Native.render.

Definition clickDownload (w : World) : M unit :=
  click_button render (handleDownload w).

End AppTsx.

(* ================================================================== *)
(** ** The URL shapes, in the words of the specification *)

Module Spec.
Import Js RegExp Popup.

(** The target domain, with either scheme and with or without [www.]. *)
Definition origins : list jsstring :=
  [js "http://wattpad.com/"; js "http://www.wattpad.com/";
   js "https://wattpad.com/"; js "https://www.wattpad.com/"].

(** A non-empty run of decimal digits. *)
Definition digits (ds : jsstring) : Prop :=
  ds <> [] /\ forallb is_digit ds = true.

(** The run of digits [ds] ends where [rest] begins. *)
Definition ends_run (rest : jsstring) : Prop :=
  match rest with
  | [] => True
  | x :: _ => is_digit x = false
  end.

(** Direct story page: path [/story/<digits>-...] on the target domain. *)
Definition direct_story_url (url ds : jsstring) : Prop :=
  exists o rest,
    In o origins /\ digits ds /\ url = o ++ js "story/" ++ ds ++ js "-" ++ rest.

(** Story chapter page: path [/<digits>] at the root of the target domain. *)
Definition story_part_url (url ds : jsstring) : Prop :=
  exists o rest,
    In o origins /\ digits ds /\ ends_run rest /\ url = o ++ ds ++ rest.

(** What the single pattern of [App.tsx] stands for: path [/story/<digits>]
    on the target domain, with or without anything after the digits. *)
Definition story_prefix_url (url ds : jsstring) : Prop :=
  exists o rest,
    In o origins /\ digits ds /\ ends_run rest
    /\ url = o ++ js "story/" ++ ds ++ rest.

(** A non-success HTTP status. *)
Definition non_success (status : N) : Prop := status < 200 \/ 299 < status.

(** The chapter lookup did not yield a story: the request failed, the status
    is not a success, the body is not JSON, or the answer has no [groupId]
    property. *)
Definition lookup_unresolved (outcome : Exn + Response) : Prop :=
  match outcome with
  | inl _ => True
  | inr r =>
      non_success (status r)
      \/ (exists e, json r = inl e)
      \/ (exists data, json r = inr data
                       /\ get_prop data (js "groupId") = JUndefined)
  end.

End Spec.

(* ================================================================== *)
(** ** The variants side by side, and sample worlds *)

Module Variants.
Import Js Popup.

(** The classifiers that resolve chapter pages. *)
Definition chapter_classifiers : list (World -> M unit) :=
  [Part000.checkUrl; Part001.checkUrl; Part002.checkUrl].

Definition classifiers : list (World -> M unit) :=
  chapter_classifiers ++ [AppTsx.checkUrl].

(** The handlers that start with the backend request. *)
Definition plain_downloaders : list (World -> JsVal -> bool -> M unit) :=
  [Part000.handleDownload; Part002.handleDownload; AppTsx.handleDownload].

Definition downloaders : list (World -> JsVal -> bool -> M unit) :=
  Part001.handleDownload :: plain_downloaders.

Definition download_buttons : list (World -> M unit) :=
  [Part000.clickDownload; Part001.clickDownload; Part002.clickDownload;
   AppTsx.clickDownload].

(** The request [checkUrl] sends to resolve chapter [partId]. *)
Definition lookup_request (w : World) (partId : jsstring) : Request :=
  get_request (story_part_endpoint partId) [(js "User-Agent", userAgent w)].

(** The state after [setIsValidPage(false)] alone. *)
Definition marked_invalid (st : PopupState) : PopupState :=
  {| isValidPage := Some false; storyId := storyId st;
     embedImages := embedImages st; isLoading := isLoading st |}.

(** The state after [setIsValidPage(true)] and [setStoryId(v)]. *)
Definition marked_valid (v : JsVal) (st : PopupState) : PopupState :=
  {| isValidPage := Some true; storyId := v;
     embedImages := embedImages st; isLoading := isLoading st |}.

(** The state after [setIsLoading(false)]. *)
Definition idle (st : PopupState) : PopupState :=
  {| isValidPage := isValidPage st; storyId := storyId st;
     embedImages := embedImages st; isLoading := false |}.

(** The only text the handlers ever pass to [alert]. *)
Definition generic_alert : jsstring :=
  js "An error occurred during the download.".

(** The error that [handleDownload] throws, catches and logs on a
    non-success answer [r] of the backend. *)
Definition api_error (r : Response) : Exn :=
  Error (js "API Error: "
         ++ to_string (js_or (opt_prop (match json r with
                                        | inr v => v
                                        | inl _ => JNull
                                        end) (js "error"))
                             (JStr (statusText r)))).

Definition download_failed (e : Exn) : Effect :=
  Console Err [LStr (js "Download failed:"); LExn e].

End Variants.

Module Examples.
Import Js Popup.

Definition world (url : jsstring) (answer : Request -> Exn + Response)
    : World :=
  {| chrome_tabs := Some (inr [{| tab_url := Some url |}]);
     userAgent := js "Mozilla/5.0";
     fetch_result := answer;
     cookies_getAll := fun _ => inr [{| cookie_name := js "token";
                                        cookie_value := js "abc" |}];
     objectURL := fun _ => js "blob:popup/0" |}.

(** An answer with a JSON body. *)
Definition json_response (code : N) (reason : jsstring) (v : JsVal)
    : Response :=
  {| status := code; statusText := reason; content_disposition := None;
     json := inr v; text := inr (to_string v); blob := inr [] |}.

(** An answer that carries a file. *)
Definition file_response (disposition : option jsstring) : Response :=
  {| status := 200; statusText := js "OK";
     content_disposition := disposition;
     json := inl {| exn_name := js "SyntaxError";
                    exn_message := js "Unexpected token" |};
     text := inr (js "PK"); blob := inr [80; 75; 3; 4] |}.

Definition failed_to_fetch : Exn := TypeError (js "Failed to fetch").

(** The chapter endpoint knows the story of every chapter. *)
Definition chapter_of_999 : World :=
  world (js "https://www.wattpad.com/555")
    (fun _ => inr (json_response 200 (js "OK")
                     (JObj [(js "groupId", JNum 999)]))).

(** The chapter endpoint answers with a story id of zero. *)
Definition chapter_of_zero : World :=
  world (js "https://www.wattpad.com/555")
    (fun _ => inr (json_response 200 (js "OK")
                     (JObj [(js "groupId", JNum 0)]))).

(** The chapter endpoint is unreachable. *)
Definition chapter_offline : World :=
  world (js "https://www.wattpad.com/555") (fun _ => inl failed_to_fetch).

Definition story_page : World :=
  world (js "https://www.wattpad.com/story/999-my-tale")
    (fun _ => inr (file_response None)).

(** A story address without the dash and the title. *)
Definition undashed_story : World :=
  world (js "https://www.wattpad.com/story/123")
    (fun _ => inr (file_response None)).

Definition other_page : World :=
  world (js "https://example.org/555") (fun _ => inl failed_to_fetch).

(** The backend refuses with HTTP 500 and a JSON error body. *)
Definition quota_exceeded : World :=
  world (js "https://www.wattpad.com/story/999-my-tale")
    (fun _ => inr (json_response 500 (js "Internal Server Error")
                     (JObj [(js "error", JStr (js "quota exceeded"))]))).

(** The backend works but the story-metadata endpoint is unreachable. *)
Definition title_offline : World :=
  world (js "https://www.wattpad.com/story/999-my-tale")
    (fun req => match req_method req with
                | GET => inl failed_to_fetch
                | POST => inr (file_response None)
                end).

(** Header values. *)
Definition plain_header : jsstring :=
  js "attachment; filename=" ++ [34] ++ js "abc.epub" ++ [34].
Definition utf8_header : jsstring :=
  js "attachment; filename*=UTF-8''a%20b.epub".
Definition bare_utf8_header : jsstring := js "filename*=UTF-8''a%20b.epub".
Definition both_header : jsstring :=
  js "attachment; filename=" ++ [34] ++ js "x.epub" ++ [34]
  ++ js "; filename*=UTF-8''a%20b.epub".

Definition with_header (h : jsstring) : World :=
  world (js "https://www.wattpad.com/story/999-my-tale")
    (fun _ => inr (file_response (Some h))).

Definition busy : PopupState :=
  {| isValidPage := Some true; storyId := JStr (js "999");
     embedImages := true; isLoading := true |}.

Definition ready : PopupState :=
  {| isValidPage := Some true; storyId := JStr (js "999");
     embedImages := true; isLoading := false |}.

End Examples.

(* ================================================================== *)
(** ** Observations on runs, controls and further sample worlds *)

Module Runs.
Import Js RegExp Popup Variants.

(** What the [catch] block of [handleDownload] adds to the trace. *)
Definition failure (e : Exn) : list Effect :=
  [download_failed e; Alert generic_alert].

(** The request to the backend. *)
Definition backend_request (endpoint : jsstring) (sid : JsVal) (emb : bool)
    (cookies : list Cookie) : Request :=
  post_json endpoint {| body_storyId := sid; body_isEmbedImages := emb;
                        body_cookies := cookies |}.

(** The trace of the part that all handlers share: cookies, POST, answer,
    body, object URL; [deliver] is what a variant does with the URL. *)
Definition backend_phase (w : World) (endpoint : jsstring) (sid : JsVal)
    (emb : bool) (deliver : Response -> Blob -> list Effect) : list Effect :=
  CookiesGetAll (js "wattpad.com") ::
  match cookies_getAll w (js "wattpad.com") with
  | inl e => failure e
  | inr cookies =>
      Fetch (backend_request endpoint sid emb cookies) ::
      match fetch_result w (backend_request endpoint sid emb cookies) with
      | inl e => failure e
      | inr r =>
          if ok r then
            match blob r with
            | inl e => failure e
            | inr b => CreateObjectURL b :: deliver r b
            end
          else failure (api_error r)
      end
  end.

(** Each handler with the address of its backend. *)
Definition backends : list ((World -> JsVal -> bool -> M unit) * jsstring) :=
  [(Part000.handleDownload, Part000.apiEndpoint);
   (Part001.handleDownload, Part001.apiEndpoint);
   (Part002.handleDownload, Part002.apiEndpoint);
   (AppTsx.handleDownload, AppTsx.apiEndpoint)].

(** The domains whose cookies a run read. *)
Fixpoint cookie_reads (tr : list Effect) : list jsstring :=
  match tr with
  | [] => []
  | CookiesGetAll d :: tr' => d :: cookie_reads tr'
  | _ :: tr' => cookie_reads tr'
  end.

(** The blobs for which a run made an object URL, and the URLs it revoked. *)
Fixpoint created_for (tr : list Effect) : list Blob :=
  match tr with
  | [] => []
  | CreateObjectURL b :: tr' => b :: created_for tr'
  | _ :: tr' => created_for tr'
  end.

Fixpoint revoked (tr : list Effect) : list jsstring :=
  match tr with
  | [] => []
  | RevokeObjectURL u :: tr' => u :: revoked tr'
  | _ :: tr' => revoked tr'
  end.

(** What the callbacks left with the browser do, once it calls them. *)
Fixpoint left_with_browser (tr : list Effect) : list Effect :=
  match tr with
  | [] => []
  | ChromeDownload _ _ callback :: tr' => callback ++ left_with_browser tr'
  | _ :: tr' => left_with_browser tr'
  end.

(** The effects a classifier may have: asking for the tabs, console output
    and requests. *)
Definition classifier_effect (e : Effect) : bool :=
  match e with
  | TabsQuery | Console _ _ | Fetch _ => true
  | _ => false
  end.

(** Does the code unit [c] occur in [s]? *)
Definition has_char (c : char) (s : jsstring) : bool :=
  existsb (N.eqb c) s.

(** The checkbox of each variant. *)
Definition locking_toggles : list (M unit) :=
  [click_toggle Part000.render; click_toggle Part001.render].

Definition free_toggles : list (M unit) :=
  [click_toggle Part002.render; click_toggle AppTsx.render].

(** The state with the flag [embedImages] set to [b]. *)
Definition with_embed (b : bool) (st : PopupState) : PopupState :=
  {| isValidPage := isValidPage st; storyId := storyId st;
     embedImages := b; isLoading := isLoading st |}.

(** The download button of each variant with the handler behind it. *)
Definition controls
    : list ((World -> M unit) * (World -> JsVal -> bool -> M unit)) :=
  [(Part000.clickDownload, Part000.handleDownload);
   (Part001.clickDownload, Part001.handleDownload);
   (Part002.clickDownload, Part002.handleDownload);
   (AppTsx.clickDownload, AppTsx.handleDownload)].

(** The views of each variant. *)
Definition renderers : list (PopupState -> View) :=
  [Part000.render; Part001.render; Part002.render; AppTsx.render].

End Runs.

Module Cases.
Import Js Popup.

(** A build without the [chrome.tabs] API. *)
Definition no_tabs_api : World :=
  {| chrome_tabs := None; userAgent := js "Mozilla/5.0";
     fetch_result := fun _ => inl Examples.failed_to_fetch;
     cookies_getAll := fun _ => inr [];
     objectURL := fun _ => js "blob:popup/0" |}.

(** The tab query is refused. *)
Definition query_refused : World :=
  {| chrome_tabs := Some (inl (Error (js "No current window")));
     userAgent := js "Mozilla/5.0";
     fetch_result := fun _ => inl Examples.failed_to_fetch;
     cookies_getAll := fun _ => inr [];
     objectURL := fun _ => js "blob:popup/0" |}.

(** The active tab hides its address. *)
Definition hidden_tab : World :=
  {| chrome_tabs := Some (inr [{| tab_url := None |}]);
     userAgent := js "Mozilla/5.0";
     fetch_result := fun _ => inl Examples.failed_to_fetch;
     cookies_getAll := fun _ => inr [];
     objectURL := fun _ => js "blob:popup/0" |}.

(** The cookie store cannot be read. *)
Definition cookies_denied : World :=
  {| chrome_tabs := Some (inr [{| tab_url := Some (js "https://www.wattpad.com/story/999-my-tale") |}]);
     userAgent := js "Mozilla/5.0";
     fetch_result := fun _ => inr (Examples.file_response None);
     cookies_getAll := fun _ => inl (Error (js "No permission"));
     objectURL := fun _ => js "blob:popup/0" |}.

(** The backend answers 200, but the body cannot be read. *)
Definition broken_body : Response :=
  {| status := 200; statusText := js "OK"; content_disposition := None;
     json := inl Examples.failed_to_fetch;
     text := inl Examples.failed_to_fetch;
     blob := inl Examples.failed_to_fetch |}.

Definition body_lost : World :=
  Examples.world (js "https://www.wattpad.com/story/999-my-tale")
    (fun _ => inr broken_body).

(** The story-metadata endpoint answers with the JSON value [v] and the
    status [code]; the backend sends a file. *)
Definition titled (code : N) (v : JsVal) : World :=
  Examples.world (js "https://www.wattpad.com/story/999-my-tale")
    (fun req => match req_method req with
                | GET => inr (Examples.json_response code (js "") v)
                | POST => inr (Examples.file_response None)
                end).

End Cases.

(* ================================================================== *)
(** ** Properties of the matcher *)

Module RegExpFacts.
Import Js RegExp.

(** The ways in which a pattern can consume a prefix of the input, without
    regard to priority. *)
Inductive matches (ic : bool)
  : regex -> nat -> jsstring -> Caps -> nat -> jsstring -> Caps -> Prop :=
| M_Eps n s c : matches ic Eps n s c n s c
| M_Bol s c : matches ic Bol 0 s c 0 s c
| M_Lit a x n s c :
    lit_eq ic a x = true -> matches ic (Lit a) n (x :: s) c (S n) s c
| M_Cls p x n s c :
    p x = true -> matches ic (Cls p) n (x :: s) c (S n) s c
| M_Cat r1 r2 n s c n1 s1 c1 n2 s2 c2 :
    matches ic r1 n s c n1 s1 c1 ->
    matches ic r2 n1 s1 c1 n2 s2 c2 ->
    matches ic (Cat r1 r2) n s c n2 s2 c2
| M_OptTake r n s c n1 s1 c1 :
    matches ic r n s c n1 s1 c1 -> matches ic (Opt r) n s c n1 s1 c1
| M_OptSkip r n s c : matches ic (Opt r) n s c n s c
| M_Star p l n s c :
    forallb p l = true ->
    matches ic (Star p) n (l ++ s) c (List.length l + n) s c
| M_Plus p x l n s c :
    forallb p (x :: l) = true ->
    matches ic (Plus p) n (x :: l ++ s) c (List.length (x :: l) + n) s c
| M_Group i r n s c n1 s1 c1 :
    matches ic r n s c n1 s1 c1 ->
    matches ic (Group i r) n s c n1 s1 (set_cap i (firstn (n1 - n) s) c1).

Lemma star_sound p : forall s n c k res,
  star p n s c k = Some res ->
  exists l s1, s = l ++ s1 /\ forallb p l = true
               /\ k (List.length l + n)%nat s1 c = Some res.
Proof.
  induction s as [|x s IH]; intros n c k res H; simpl in H.
  - exists [], []. auto.
  - destruct (p x) eqn:Hp.
    + destruct (star p (S n) s c k) eqn:Hs.
      * inversion H; subst. apply IH in Hs.
        destruct Hs as (l & s1 & -> & Hl & Hk).
        exists (x :: l), s1. simpl. rewrite Hp, Hl.
        rewrite <- plus_n_Sm in Hk. auto.
      * exists [], (x :: s). auto.
    + exists [], (x :: s). auto.
Qed.

Lemma star_fails p : forall l s n c k,
  star p n (l ++ s) c k = None ->
  forallb p l = true ->
  k (List.length l + n)%nat s c = None.
Proof.
  induction l as [|x l IH]; intros s n c k H Hl; simpl in *.
  - destruct s as [|y s]; simpl in H; auto.
    destruct (p y); auto. destruct (star p (S n) s c k); auto. discriminate.
  - apply andb_prop in Hl. destruct Hl as [Hx Hl]. rewrite Hx in H.
    destruct (star p (S n) (l ++ s) c k) eqn:Hs; [discriminate|].
    rewrite plus_n_Sm. eapply IH; eauto.
Qed.

(** Whatever the matcher returns comes from one way of matching. *)
Ltac path_found :=
  do 3 eexists; split; [econstructor; eassumption | eassumption].

Lemma m_sound ic : forall r n s c k res,
  m ic r n s c k = Some res ->
  exists n1 s1 c1, matches ic r n s c n1 s1 c1 /\ k n1 s1 c1 = Some res.
Proof.
  induction r; intros n s c k res H; simpl in H.
  - path_found.
  - destruct n; simpl in H; [|discriminate]. path_found.
  - destruct s as [|x s]; [discriminate|].
    destruct (lit_eq ic a x) eqn:E; [|discriminate]. path_found.
  - destruct s as [|x s]; [discriminate|].
    destruct (p x) eqn:E; [|discriminate]. path_found.
  - apply IHr1 in H. destruct H as (n1 & s1 & c1 & H1 & H).
    apply IHr2 in H. destruct H as (n2 & s2 & c2 & H2 & H).
    path_found.
  - destruct (m ic r n s c k) eqn:E.
    + inversion H; subst. apply IHr in E.
      destruct E as (n1 & s1 & c1 & H1 & Hk).
      do 3 eexists; split; [apply M_OptTake; eassumption | assumption].
    + do 3 eexists; split; [apply M_OptSkip | assumption].
  - apply star_sound in H. destruct H as (l & s1 & -> & Hl & Hk).
    path_found.
  - destruct s as [|x s]; [discriminate|].
    destruct (p x) eqn:E; [|discriminate].
    apply star_sound in H. destruct H as (l & s1 & -> & Hl & Hk).
    exists (List.length (x :: l) + n)%nat, s1, c. split.
    + apply M_Plus. simpl. now rewrite E, Hl.
    + simpl. now rewrite <- plus_n_Sm in Hk.
  - apply IHr in H. destruct H as (n1 & s1 & c1 & H1 & Hk).
    path_found.
Qed.

(** When the matcher fails, the continuation fails after every way of
    matching. *)
Lemma m_fails ic : forall r n s c k,
  m ic r n s c k = None ->
  forall n1 s1 c1, matches ic r n s c n1 s1 c1 -> k n1 s1 c1 = None.
Proof.
  induction r; intros n s c k H n1 s1 c1 Hm; simpl in H;
    inversion Hm; subst; clear Hm.
  - assumption.
  - assumption.
  - match goal with E : lit_eq _ _ _ = true |- _ => now rewrite E in H end.
  - match goal with E : _ = true |- _ => now rewrite E in H end.
  - match goal with
    | H1 : matches _ r1 _ _ _ _ _ _, H2 : matches _ r2 _ _ _ _ _ _ |- _ =>
        eapply IHr2; [|exact H2];
        exact (IHr1 _ _ _ _ H _ _ _ H1)
    end.
  - match type of H with match ?x with _ => _ end = _ =>
      destruct x eqn:E; [discriminate|] end.
    eapply IHr; eauto.
  - match type of H with match ?x with _ => _ end = _ =>
      destruct x; [discriminate|assumption] end.
  - eapply star_fails; eauto.
  - match goal with E : forallb _ (_ :: _) = true |- _ =>
      simpl in E; apply andb_prop in E; destruct E as [Ex El] end.
    rewrite Ex in H.
    simpl. rewrite plus_n_Sm. eapply star_fails; eauto.
  - match goal with H1 : matches _ r _ _ _ _ _ _ |- _ =>
      exact (IHr _ _ _ _ H _ _ _ H1) end.
Qed.

(** A pattern that starts with [^] matches at index 0 or nowhere. *)
Lemma search_bol ic r : forall s n,
  search ic (Cat Bol r) (S n) s = None.
Proof.
  induction s as [|x s IH]; intros n; simpl; auto.
Qed.

End RegExpFacts.

(* ================================================================== *)
(** ** The URL patterns match exactly the URL shapes of the specification *)

Module PatternFacts.
Import Js RegExp RegExpFacts Popup Spec.

Lemma lits_paths : forall p n s c n1 s1 c1,
  matches false (lits p) n s c n1 s1 c1 ->
  s = p ++ s1 /\ n1 = (List.length p + n)%nat /\ c1 = c.
Proof.
  induction p as [|a p IH]; intros n s c n1 s1 c1 H; simpl in H.
  - inversion H; subst. auto.
  - inversion H as [| | | | ? ? ? ? ? n2 s2 c2 ? ? ? HL HR | | | | | ]; subst.
    inversion HL; subst.
    apply IH in HR. destruct HR as (-> & -> & ->).
    match goal with E : lit_eq false _ _ = true |- _ =>
      unfold lit_eq in E; apply N.eqb_eq in E; subst end.
    simpl. rewrite <- plus_n_Sm. auto.
Qed.

Lemma firstn_run {A} (l s : list A) n :
  firstn (List.length l + n - n) (l ++ s) = l.
Proof.
  replace (List.length l + n - n)%nat with (List.length l + 0)%nat by lia.
  rewrite firstn_app_2. simpl. apply app_nil_r.
Qed.

(** Inversion of a path through a composite pattern. *)
Ltac inv_path :=
  repeat match goal with
  | H : matches false (Str _) _ _ _ _ _ _ |- _ =>
      apply lits_paths in H; destruct H as (? & ? & ?); subst
  | H : matches false (Cat _ _) _ _ _ _ _ _ |- _ =>
      inversion H; subst; clear H
  | H : matches false Bol _ _ _ _ _ _ |- _ => inversion H; subst; clear H
  | H : matches false (Opt _) _ _ _ _ _ _ |- _ => inversion H; subst; clear H
  | H : matches false (Group _ _) _ _ _ _ _ _ |- _ =>
      inversion H; subst; clear H
  | H : matches false (Plus _) _ _ _ _ _ _ |- _ => inversion H; subst; clear H
  | H : matches false (Star _) _ _ _ _ _ _ |- _ => inversion H; subst; clear H
  end.

Lemma in_origins o : In o origins <->
  o = js "http://wattpad.com/" \/ o = js "http://www.wattpad.com/" \/
  o = js "https://wattpad.com/" \/ o = js "https://www.wattpad.com/".
Proof. unfold origins, In. intuition congruence. Qed.

(** Find the origin for which the two sides of the goal's equation agree. *)
Ltac with_origin rest :=
  first
    [ exists (js "http://wattpad.com/"), rest;
      split; [apply in_origins; auto | split; [ | reflexivity]]
    | exists (js "http://www.wattpad.com/"), rest;
      split; [apply in_origins; auto | split; [ | reflexivity]]
    | exists (js "https://wattpad.com/"), rest;
      split; [apply in_origins; auto | split; [ | reflexivity]]
    | exists (js "https://www.wattpad.com/"), rest;
      split; [apply in_origins; auto 6 | split; [ | reflexivity]] ].

Lemma story_paths url n1 s1 c1 :
  matches false (source wattpadStoryRegex) 0 url [] n1 s1 c1 ->
  exists ds, direct_story_url url ds /\ c1 = [(1%nat, ds)].
Proof.
  unfold wattpadStoryRegex, source. intros H. inv_path.
  all: match goal with
       | E : forallb is_digit (?x :: ?l) = true,
         D : forallb dot ?l0 = true |- _ =>
           exists (x :: l); split;
           [ with_origin (l0 ++ s1); split; [discriminate | exact E]
           | unfold set_cap; do 2 f_equal; exact (firstn_run (x :: l) _ _) ]
       end.
Qed.

Lemma part_paths url n1 s1 c1 :
  matches false (source wattpadStoryPartRegex) 0 url [] n1 s1 c1 ->
  exists o ds, In o origins /\ digits ds /\ url = o ++ ds ++ s1
               /\ c1 = [(1%nat, ds)].
Proof.
  unfold wattpadStoryPartRegex, source. intros H. inv_path.
  all: match goal with
       | E : forallb is_digit (?x :: ?l) = true |- _ =>
           first
             [ exists (js "http://wattpad.com/"), (x :: l);
               split; [apply in_origins; auto|];
               split; [split; [discriminate | exact E]|];
               split; [reflexivity|]
             | exists (js "http://www.wattpad.com/"), (x :: l);
               split; [apply in_origins; auto|];
               split; [split; [discriminate | exact E]|];
               split; [reflexivity|]
             | exists (js "https://wattpad.com/"), (x :: l);
               split; [apply in_origins; auto|];
               split; [split; [discriminate | exact E]|];
               split; [reflexivity|]
             | exists (js "https://www.wattpad.com/"), (x :: l);
               split; [apply in_origins; auto 6|];
               split; [split; [discriminate | exact E]|];
               split; [reflexivity|] ];
           unfold set_cap; do 2 f_equal; exact (firstn_run (x :: l) _ _)
       end.
Qed.

(** The greedy quantifier takes the whole run when the continuation accepts
    what follows. *)
Lemma star_greedy p : forall l s n c k r,
  forallb p l = true ->
  match s with [] => True | x :: _ => p x = false end ->
  k (List.length l + n)%nat s c = Some r ->
  star p n (l ++ s) c k = Some r.
Proof.
  induction l as [|x l IH]; intros s n c k r Hl Hs Hk; simpl in *.
  - destruct s as [|y s]; simpl; auto. now rewrite Hs.
  - apply andb_prop in Hl. destruct Hl as [Hx Hl]. rewrite Hx.
    rewrite (IH s (S n) c k r); auto. now rewrite <- plus_n_Sm.
Qed.

(** A quantifier run keeps whatever the continuation guarantees. *)
Lemma star_post p (Q : Caps -> Prop) k c :
  (forall n s, exists r, k n s c = Some r /\ Q r) ->
  forall s n, exists r, star p n s c k = Some r /\ Q r.
Proof.
  intros Hk. induction s as [|x s IH]; intros n; simpl.
  - apply Hk.
  - destruct (p x); [|apply Hk].
    destruct (IH (S n)) as (r & -> & Hr). eauto.
Qed.

(** For a pattern anchored by [^], [match] is one run of the matcher at
    index 0. *)
Lemma str_match_bol re r url :
  source re = Cat Bol r ->
  str_match url re
  = m (ignoreCase re) (Cat Bol r) 0 url []
      (fun n' _ c => Some (set_cap 0 (firstn (n' - 0) url) c)).
Proof.
  intros E. unfold str_match. rewrite E.
  destruct url as [|x u]; unfold search; fold search.
  - now destruct (m _ _ _ _ _ _).
  - rewrite search_bol. now destruct (m _ _ _ _ _ _).
Qed.

Lemma firstn_exact {A} (l s : list A) : firstn (List.length l) (l ++ s) = l.
Proof.
  induction l as [|x l IH]; simpl; [now destruct s | now rewrite IH].
Qed.

Lemma digit_not (a : char) d :
  is_digit d = true -> is_digit a = false -> (d =? a) = false.
Proof.
  intros Hd Ha. apply N.eqb_neq. intros ->. congruence.
Qed.

Lemma firstn_group {A} (d : A) l s n k :
  n = S k -> firstn (List.length l + n - k) (d :: l ++ s) = d :: l.
Proof.
  intros ->. replace (List.length l + S k - k)%nat with (S (List.length l)) by lia.
  simpl. f_equal. apply firstn_exact.
Qed.

Lemma digits_inv ds :
  digits ds ->
  exists d ds0, ds = d :: ds0 /\ is_digit d = true
                /\ forallb is_digit ds0 = true.
Proof.
  intros [Hne Hall]. destruct ds as [|d ds0]; [congruence|].
  simpl in Hall. apply andb_prop in Hall. destruct Hall. eauto.
Qed.

(** Run the greedy digit group of the goal over [d :: ds0], given that group
    [i] of every result of the continuation is [d :: ds0]. *)
Ltac run_digits i d ds0 Hds :=
  match goal with
  | |- context [star is_digit ?n (ds0 ++ ?s) ?c ?k] =>
      let Hr := fresh "Hr" in
      let Hc := fresh "Hc" in
      let r := fresh "r" in
      assert (exists r, k (List.length ds0 + n)%nat s c = Some r
                        /\ cap i r = Some (d :: ds0)) as (r & Hr & Hc);
      [ | rewrite (@star_greedy is_digit ds0 s n c k r Hds); [ | | exact Hr];
          [ simpl; rewrite Hc; reflexivity | ] ]
  end.

(** A direct story URL matches the story pattern, which captures its digits. *)
Lemma story_match url ds :
  direct_story_url url ds ->
  truthy_cap (str_match url wattpadStoryRegex) 1 = Some ds.
Proof.
  intros (o & rest & Ho & Hds & ->).
  apply digits_inv in Hds. destruct Hds as (d & ds0 & -> & Hd & Hds).
  rewrite (@str_match_bol wattpadStoryRegex _ _ eq_refl).
  apply in_origins in Ho. destruct Ho as [-> | [-> | [-> | ->]]].
  all: cbn -[firstn]; rewrite Hd; run_digits 1%nat d ds0 Hds;
    [ cbn -[firstn]; apply star_post; intros n s; eexists; split;
      [reflexivity | simpl; f_equal; apply firstn_group; reflexivity]
    | reflexivity ].
Qed.

(** A chapter URL matches the chapter pattern, which captures the whole run
    of digits. *)
Lemma part_match url ds :
  story_part_url url ds ->
  truthy_cap (str_match url wattpadStoryPartRegex) 1 = Some ds.
Proof.
  intros (o & rest & Ho & Hds & Hend & ->).
  apply digits_inv in Hds. destruct Hds as (d & ds0 & -> & Hd & Hds).
  rewrite (@str_match_bol wattpadStoryPartRegex _ _ eq_refl).
  apply in_origins in Ho. destruct Ho as [-> | [-> | [-> | ->]]].
  all: cbn -[firstn]; rewrite Hd; run_digits 1%nat d ds0 Hds;
    [ eexists; split;
      [reflexivity | simpl; f_equal; apply firstn_group; reflexivity]
    | exact Hend ].
Qed.

(** A chapter URL does not match the story pattern. *)
Lemma part_not_story url ds :
  story_part_url url ds ->
  truthy_cap (str_match url wattpadStoryRegex) 1 = None.
Proof.
  intros (o & rest & Ho & Hds & Hend & ->).
  apply digits_inv in Hds. destruct Hds as (d & ds0 & -> & Hd & Hds).
  rewrite (@str_match_bol wattpadStoryRegex _ _ eq_refl).
  pose proof (@digit_not 115 d Hd eq_refl) as Hs.
  apply in_origins in Ho. destruct Ho as [-> | [-> | [-> | ->]]].
  all: cbn -[firstn]; rewrite ?Hs; reflexivity.
Qed.

(** The pattern of [App.tsx] captures the digits after [/story/] in its
    second group. *)
Lemma app_prefix_match url ds :
  story_prefix_url url ds ->
  truthy_cap (str_match url AppTsx.wattpadStoryRegex) 2 = Some ds.
Proof.
  intros (o & rest & Ho & Hds & Hend & ->).
  apply digits_inv in Hds. destruct Hds as (d & ds0 & -> & Hd & Hds).
  rewrite (@str_match_bol AppTsx.wattpadStoryRegex _ _ eq_refl).
  apply in_origins in Ho. destruct Ho as [-> | [-> | [-> | ->]]].
  all: cbn -[firstn]; rewrite Hd; run_digits 2%nat d ds0 Hds;
    [ eexists; split;
      [reflexivity | simpl; f_equal; apply firstn_group; reflexivity]
    | exact Hend ].
Qed.

(** A direct story URL is one of those. *)
Lemma direct_is_prefix url ds :
  direct_story_url url ds -> story_prefix_url url ds.
Proof.
  intros (o & rest & Ho & Hds & ->).
  exists o, (js "-" ++ rest). repeat split; auto; apply Hds.
Qed.

Lemma app_story_match url ds :
  direct_story_url url ds ->
  truthy_cap (str_match url AppTsx.wattpadStoryRegex) 2 = Some ds.
Proof. intros H. apply app_prefix_match, direct_is_prefix, H. Qed.

Lemma app_paths url n1 s1 c1 :
  matches false (source AppTsx.wattpadStoryRegex) 0 url [] n1 s1 c1 ->
  exists o ds, In o origins /\ digits ds
               /\ url = o ++ js "story/" ++ ds ++ s1.
Proof.
  unfold AppTsx.wattpadStoryRegex, source. intros H. inv_path.
  all: match goal with
       | E : forallb is_digit (?x :: ?l) = true |- _ =>
           first
             [ exists (js "http://wattpad.com/"), (x :: l);
               split; [apply in_origins; auto|];
               split; [split; [discriminate | exact E] | reflexivity]
             | exists (js "http://www.wattpad.com/"), (x :: l);
               split; [apply in_origins; auto|];
               split; [split; [discriminate | exact E] | reflexivity]
             | exists (js "https://wattpad.com/"), (x :: l);
               split; [apply in_origins; auto|];
               split; [split; [discriminate | exact E] | reflexivity]
             | exists (js "https://www.wattpad.com/"), (x :: l);
               split; [apply in_origins; auto 6|];
               split; [split; [discriminate | exact E] | reflexivity] ]
       end.
Qed.

(** The pattern of [App.tsx] rejects chapter URLs. *)
Lemma app_part_no_match url ds :
  story_part_url url ds ->
  truthy_cap (str_match url AppTsx.wattpadStoryRegex) 2 = None.
Proof.
  intros (o & rest & Ho & Hds & Hend & ->).
  apply digits_inv in Hds. destruct Hds as (d & ds0 & -> & Hd & Hds).
  rewrite (@str_match_bol AppTsx.wattpadStoryRegex _ _ eq_refl).
  pose proof (@digit_not 115 d Hd eq_refl) as Hs.
  apply in_origins in Ho. destruct Ho as [-> | [-> | [-> | ->]]].
  all: cbn -[firstn]; rewrite ?Hs; reflexivity.
Qed.

(** Every string splits into its leading digits and a rest that starts with
    something else. *)
Lemma digit_span s :
  exists l s1, s = l ++ s1 /\ forallb is_digit l = true /\ ends_run s1.
Proof.
  induction s as [|x s (l & s1 & -> & Hl & He)].
  - exists [], []. simpl. auto.
  - destruct (is_digit x) eqn:E.
    + exists (x :: l), s1. simpl. rewrite E, Hl. auto.
    + exists [], (x :: l ++ s1). simpl. auto.
Qed.

(** Conversely, whatever the story pattern matches is a direct story URL. *)
Lemma story_match_inv url res :
  str_match url wattpadStoryRegex = Some res ->
  exists ds, direct_story_url url ds.
Proof.
  rewrite (@str_match_bol wattpadStoryRegex _ _ eq_refl). intros H.
  apply m_sound in H. destruct H as (n1 & s1 & c1 & Hp & _).
  apply story_paths in Hp. destruct Hp as (ds & Hd & _). eauto.
Qed.

(** And whatever the chapter pattern matches is a chapter URL. *)
Lemma part_match_inv url res :
  str_match url wattpadStoryPartRegex = Some res ->
  exists ds, story_part_url url ds.
Proof.
  rewrite (@str_match_bol wattpadStoryPartRegex _ _ eq_refl). intros H.
  apply m_sound in H. destruct H as (n1 & s1 & c1 & Hp & _).
  apply part_paths in Hp. destruct Hp as (o & ds & Ho & [Hne Hds] & -> & _).
  destruct (digit_span s1) as (l & s2 & -> & Hl & He).
  exists (ds ++ l), o, s2. repeat split; auto.
  - destruct ds; [congruence | discriminate].
  - rewrite forallb_app, Hds, Hl. reflexivity.
  - now rewrite <- app_assoc.
Qed.

Lemma story_no_match url :
  (forall ds, ~ direct_story_url url ds) ->
  str_match url wattpadStoryRegex = None.
Proof.
  intros H. destruct (str_match url wattpadStoryRegex) eqn:E; auto.
  apply story_match_inv in E. destruct E as (ds & Hd). now apply H in Hd.
Qed.

Lemma part_no_match url :
  (forall ds, ~ story_part_url url ds) ->
  str_match url wattpadStoryPartRegex = None.
Proof.
  intros H. destruct (str_match url wattpadStoryPartRegex) eqn:E; auto.
  apply part_match_inv in E. destruct E as (ds & Hd). now apply H in Hd.
Qed.

(** The matcher on some inputs: priority of the greedy quantifier, the
    optional group, a search that starts in the middle, and the [i] flag. *)
Example matcher_examples :
  truthy_cap (str_match (js "https://www.wattpad.com/story/999-my-tale")
                wattpadStoryRegex) 1 = Some (js "999")
  /\ truthy_cap (str_match (js "http://wattpad.com/12345-part-one")
                   wattpadStoryPartRegex) 1 = Some (js "12345")
  /\ str_match (js "see https://www.wattpad.com/555") wattpadStoryPartRegex
     = None
  /\ str_match (js "https://m.wattpad.com/555") wattpadStoryPartRegex = None
  /\ option_map (cap 1) (str_match (js "http://www.wattpad.com/story/7")
                            AppTsx.wattpadStoryRegex)
     = Some (Some (js "www."))
  /\ option_map (cap 1) (str_match (js "http://wattpad.com/story/7")
                            AppTsx.wattpadStoryRegex)
     = Some None
  /\ truthy_cap (str_match (js "inline; FILENAME*=utf-8''x.epub; size=3")
                   Part000.utf8FilenameRegex) 1 = Some (js "x.epub")
  /\ truthy_cap (str_match (js "attachment; filename=plain.epub")
                   Part000.plainFilenameRegex) 1 = Some (js "plain.epub").
Proof. repeat split. Qed.

(** [decodeURIComponent] on some inputs: a space, a two-byte and a four-byte
    sequence, an overlong form and a lone percent sign (both URIErrors). *)
Example decode_examples :
  URI.decodeURIComponent (js "a%20b.epub") = Some (js "a b.epub")
  /\ URI.decodeURIComponent (js "%C3%A9") = Some [233]
  /\ URI.decodeURIComponent (js "%F0%9F%98%80") = Some [55357; 56832]
  /\ URI.decodeURIComponent (js "%C0%80") = None
  /\ URI.decodeURIComponent (js "100%") = None.
Proof. repeat split. Qed.

Lemma app_match_inv url res :
  str_match url AppTsx.wattpadStoryRegex = Some res ->
  exists ds, story_prefix_url url ds.
Proof.
  rewrite (@str_match_bol AppTsx.wattpadStoryRegex _ _ eq_refl). intros H.
  apply m_sound in H. destruct H as (n1 & s1 & c1 & Hp & _).
  apply app_paths in Hp. destruct Hp as (o & ds & Ho & [Hne Hds] & ->).
  destruct (digit_span s1) as (l & s2 & -> & Hl & He).
  exists (ds ++ l), o, s2. repeat split; auto.
  - destruct ds; [congruence | discriminate].
  - rewrite forallb_app, Hds, Hl. reflexivity.
  - now rewrite <- app_assoc.
Qed.

Lemma app_no_match url :
  (forall ds, ~ story_prefix_url url ds) ->
  str_match url AppTsx.wattpadStoryRegex = None.
Proof.
  intros H. destruct (str_match url AppTsx.wattpadStoryRegex) eqn:E; auto.
  apply app_match_inv in E. destruct E as (ds & Hd). now apply H in Hd.
Qed.

End PatternFacts.

(* ================================================================== *)
(** ** The classifier *)

Module ClassifierFacts.
Import Js RegExp Popup Spec Variants PatternFacts.

(** Unfold the monad, but neither the matcher nor the string literals. *)
Ltac run_monad :=
  cbv [bind emit await ret throw try_catch try_finally console alert fetch
       chrome_cookies_getAll createObjectURL catch_default
       setIsValidPage setStoryId setIsLoading setEmbedImages];
  cbv beta iota.

Lemma checkUrl_direct api w st tabs id :
  chrome_tabs w = Some (inr tabs) ->
  truthy_cap (str_match (first_tab_url tabs) wattpadStoryRegex) 1 = Some id ->
  checkUrl_with api w st
  = (Ok tt,
     {| isValidPage := Some true; storyId := JStr id;
        embedImages := embedImages st; isLoading := isLoading st |},
     [TabsQuery;
      Console Log [LStr (9989 :: js " Direct Story URL found. Story ID:");
                   LStr id]]).
Proof.
  intros Ht Hm. unfold checkUrl_with. rewrite Ht. run_monad.
  rewrite Hm. run_monad. reflexivity.
Qed.

Lemma truthy_and_prop data k :
  truthy (js_and data (get_prop data k)) = truthy (get_prop data k).
Proof.
  unfold js_and. destruct (truthy data) eqn:E; [reflexivity|].
  destruct data; simpl in *; try reflexivity; congruence.
Qed.

Ltac observe := cbn [app requests alerts saved_as trace final result_of fst snd].

(** What one run of the chapter branch does, by the outcome of the lookup. *)
Lemma checkUrl_part api w st tabs partId :
  chrome_tabs w = Some (inr tabs) ->
  truthy_cap (str_match (first_tab_url tabs) wattpadStoryRegex) 1 = None ->
  truthy_cap (str_match (first_tab_url tabs) wattpadStoryPartRegex) 1
  = Some partId ->
  let run := checkUrl_with api w st in
  result_of run = Ok tt
  /\ requests (trace run) = [lookup_request w partId]
  /\ final run
     = match fetch_result w (lookup_request w partId) with
       | inr r =>
           if ok r then
             match json r with
             | inr data =>
                 if truthy (get_prop data (js "groupId"))
                 then marked_valid (get_prop data (js "groupId")) st
                 else marked_invalid st
             | inl _ => marked_invalid st
             end
           else marked_invalid st
       | inl _ => marked_invalid st
       end.
Proof.
  intros Ht Hs Hp. unfold checkUrl_with. rewrite Ht. run_monad.
  rewrite Hs, Hp. run_monad. fold (lookup_request w partId).
  destruct (fetch_result w (lookup_request w partId)) as [e|r].
  - observe. auto.
  - destruct (ok r); cbv [negb]; cbv beta iota.
    + destruct (json r) as [e|data].
      * observe. auto.
      * rewrite truthy_and_prop.
        destruct (truthy (get_prop data (js "groupId"))); observe; auto.
    + destruct (text r); observe; auto.
Qed.

Lemma checkUrl_other api w st tabs :
  chrome_tabs w = Some (inr tabs) ->
  truthy_cap (str_match (first_tab_url tabs) wattpadStoryRegex) 1 = None ->
  truthy_cap (str_match (first_tab_url tabs) wattpadStoryPartRegex) 1 = None ->
  checkUrl_with api w st = (Ok tt, marked_invalid st, [TabsQuery]).
Proof.
  intros Ht Hs Hp. unfold checkUrl_with. rewrite Ht. run_monad.
  rewrite Hs, Hp. run_monad. reflexivity.
Qed.

Lemma app_checkUrl w st tabs :
  chrome_tabs w = Some (inr tabs) ->
  AppTsx.checkUrl w st
  = (Ok tt,
     match truthy_cap (str_match (first_tab_url tabs)
                         AppTsx.wattpadStoryRegex) 2 with
     | Some id => marked_valid (JStr id) st
     | None => marked_invalid st
     end,
     [TabsQuery]).
Proof.
  intros Ht. unfold AppTsx.checkUrl. rewrite Ht. run_monad.
  destruct (truthy_cap _ 2); reflexivity.
Qed.

Lemma app_tsx_requests w st :
  requests (trace (AppTsx.checkUrl w st)) = [].
Proof.
  unfold AppTsx.checkUrl. destruct (chrome_tabs w) as [[e|tabs]|]; run_monad.
  - reflexivity.
  - destruct (truthy_cap _ 2); reflexivity.
  - reflexivity.
Qed.

Lemma in_chapter_classifiers check :
  In check chapter_classifiers -> exists api, check = checkUrl_with api.
Proof.
  unfold chapter_classifiers, In.
  intros [<- | [<- | [<- | []]]]; eexists; reflexivity.
Qed.

End ClassifierFacts.

(* ================================================================== *)
(** ** The download orchestrator *)

Module DownloadFacts.
Import Js RegExp Popup Spec Variants ClassifierFacts.

Lemma ok_false r : ok r = false <-> non_success (status r).
Proof.
  unfold ok, non_success. rewrite andb_false_iff, !N.leb_gt. tauto.
Qed.

(** [finally] resets the flag whatever the body did. *)
Lemma finally_idle (body : M unit) st :
  isLoading (final ((setIsLoading true ;;
                     try_finally body (setIsLoading false)) st)) = false.
Proof.
  run_monad. destruct (body _) as [[r st1] tr1]. reflexivity.
Qed.

(** The handler of [catch] does not throw, so nothing escapes. *)
Lemma caught_ok (body : M unit) st :
  result_of ((setIsLoading true ;;
              try_finally
                (try_catch body
                   (fun error =>
                      console Err [LStr (js "Download failed:"); LExn error] ;;
                      alert (js "An error occurred during the download.")))
                (setIsLoading false)) st) = Ok tt.
Proof.
  run_monad. destruct (body _) as [[[[]|e] st1] tr1]; reflexivity.
Qed.

(** Case analysis on what the world answers, one outcome at a time.
    [Hpost] tells what the backend answers. *)
Ltac settle Hpost :=
  repeat (cbv beta iota zeta;
          match goal with
          | |- context [fetch_result ?w (post_json ?u ?b)] =>
              rewrite (Hpost (post_json u b) eq_refl)
          | H : ok ?r = _ |- context [ok ?r] => rewrite H; cbv [negb]
          | |- context [fetch_result ?w ?q] =>
              destruct (fetch_result w q) eqn:?
          | |- context [cookies_getAll ?w ?d] =>
              destruct (cookies_getAll w d) eqn:?
          | |- context [ok ?r] => destruct (ok r) eqn:?; cbv [negb]
          | |- context [json ?r] => destruct (json r) eqn:?
          | |- context [blob ?r] => destruct (blob r) eqn:?
          | |- context [Part001.sanitize ?t] =>
              destruct t eqn:?; cbv [Part001.sanitize ret throw]
          end).

(** No request of the trace is a POST. *)
Ltac no_post :=
  let req := fresh "req" in
  let Hin := fresh "Hin" in
  let Hm := fresh "Hm" in
  intros (req & Hin & Hm); exfalso; cbn [In] in Hin;
  repeat match type of Hin with
         | _ \/ _ => destruct Hin as [Hin | Hin]
         end;
  solve [ discriminate Hin
        | contradiction
        | injection Hin as <-; discriminate Hm ].

Ltac in_list := cbn [In]; repeat first [left; reflexivity | right].

Lemma in_downloaders h :
  In h downloaders ->
  h = Part001.handleDownload \/ h = Part000.handleDownload
  \/ exists endpoint, h = Native.handleDownload_at endpoint.
Proof.
  unfold downloaders, plain_downloaders, In.
  intros [<- | [<- | [<- | [<- | []]]]];
    [ left | right; left | right; right; eexists | right; right; eexists ];
    reflexivity.
Qed.

(** A non-success answer of the backend ends in the fixed alert; the text of
    the error goes to the console. *)
Lemma backend_refusal h w sid emb st (r : Response) :
  In h downloaders ->
  (forall req, req_method req = POST -> fetch_result w req = inr r) ->
  non_success (status r) ->
  let run := h w sid emb st in
  (exists req, In (Fetch req) (trace run) /\ req_method req = POST) ->
  alerts (trace run) = [generic_alert]
  /\ In (download_failed (api_error r)) (trace run)
  /\ saved_as (trace run) = []
  /\ final run = idle st.
Proof.
  intros Hh Hr Hs. apply ok_false in Hs.
  apply in_downloaders in Hh. destruct Hh as [-> | [-> | [endpoint ->]]].
  all: unfold Part001.handleDownload, Part000.handleDownload,
         Native.handleDownload_at; run_monad.
  all: settle Hr; observe; try no_post.
  all: intros _; unfold download_failed, api_error.
  all: try match goal with H : json ?r = _ |- _ => rewrite H end.
  all: repeat split; in_list.
Qed.

(** Every alert of every run is the fixed text. *)
Lemma alerts_are_generic h w sid emb st msg :
  In h downloaders ->
  In msg (alerts (trace (h w sid emb st))) -> msg = generic_alert.
Proof.
  intros Hh.
  apply in_downloaders in Hh. destruct Hh as [-> | [-> | [endpoint ->]]].
  all: unfold Part001.handleDownload, Part000.handleDownload,
         Native.handleDownload_at; run_monad.
  all: settle (fun (req : Request) (_ : req_method req = POST) =>
                 eq_refl (fetch_result w req)); observe.
  all: cbn [In]; intuition.
Qed.

(** A successful answer is saved under the name the header gives. *)
Lemma part000_saves w sid emb st (r : Response) b :
  (forall req, req_method req = POST -> fetch_result w req = inr r) ->
  (exists cookies, cookies_getAll w (js "wattpad.com") = inr cookies) ->
  ok r = true ->
  blob r = inr b ->
  saved_as (trace (Part000.handleDownload w sid emb st))
  = [Part000.filename_or_fallback
       (Part000.filename_of_disposition (content_disposition r)) sid].
Proof.
  intros Hr (cookies & Hc) Hok Hb. unfold Part000.handleDownload. run_monad.
  rewrite Hc. settle Hr; observe; congruence.
Qed.

Lemma in_download_buttons click :
  In click download_buttons ->
  exists title invalid locks h,
    click = fun w => click_button (render_with title invalid locks) (h w).
Proof.
  unfold download_buttons, In.
  intros [<- | [<- | [<- | [<- | []]]]]; do 4 eexists; reflexivity.
Qed.

End DownloadFacts.

(* ================================================================== *)
(** ** The properties of the specification *)

Import Js RegExp Popup Spec Variants.
Import PatternFacts ClassifierFacts DownloadFacts.

(** *** Download orchestration *)

(** C1.  Every run of [handleDownload], in every variant and whatever the
    world answers (the backend succeeds, refuses, or anything throws while
    cookies, responses or bodies are read), ends with [isLoading = false];
    no exception leaves the handler. *)
Theorem download_ends_idle h w sid emb st :
  In h downloaders ->
  isLoading (final (h w sid emb st)) = false
  /\ result_of (h w sid emb st) = Ok tt.
Proof.
  intros Hh. apply in_downloaders in Hh.
  destruct Hh as [-> | [-> | [endpoint ->]]]; split;
    first [apply finally_idle | apply caught_ok].
Qed.

Lemma download_ends_idle_witness :
  In Part000.handleDownload downloaders
  /\ isLoading (final (Part000.handleDownload Examples.quota_exceeded
                         (JStr (js "999")) true Examples.ready)) = false.
Proof.
  split.
  - right. left. reflexivity.
  - apply (@download_ends_idle Part000.handleDownload).
    right. left. reflexivity.
Defined.

(** C2, as the specification has it, fails: the backend answers the POST of
    this run with HTTP 500 and the body [{error: 'quota exceeded'}], and no
    alert of the run mentions the error string. *)
Lemma alert_omits_backend_error :
  requests (trace (Part000.handleDownload Examples.quota_exceeded
                     (JStr (js "999")) true Examples.ready))
  = [post_json Part000.apiEndpoint
       {| body_storyId := JStr (js "999"); body_isEmbedImages := true;
          body_cookies := [{| cookie_name := js "token";
                              cookie_value := js "abc" |}] |}]
  /\ (forall req,
        fetch_result Examples.quota_exceeded req
        = inr (Examples.json_response 500 (js "Internal Server Error")
                 (JObj [(js "error", JStr (js "quota exceeded"))])))
  /\ ~ (exists msg,
          In msg (alerts (trace (Part000.handleDownload
                                   Examples.quota_exceeded
                                   (JStr (js "999")) true Examples.ready)))
          /\ includes msg (js "quota exceeded") = true).
Proof.
  split; [reflexivity | split; [reflexivity|]].
  intros (msg & Hin & Hinc). vm_compute in Hin.
  destruct Hin as [<- | []]. vm_compute in Hinc. discriminate.
Qed.

(** C2, amended.  When the backend answers the POST with a non-success
    status, the run shows exactly one alert, and its text is the fixed
    'An error occurred during the download.' whatever the answer holds.
    The error string of the JSON body, when it is a non-empty string, and
    the status text, when the body is not JSON or its error field is falsy,
    goes into the message 'API Error: ...' of the error that is logged to
    the console.  Nothing is saved and the popup is idle again. *)
Theorem backend_error_is_logged_not_alerted h w sid emb st (r : Response) :
  In h downloaders ->
  (forall req, req_method req = POST -> fetch_result w req = inr r) ->
  non_success (status r) ->
  (exists req, In (Fetch req) (trace (h w sid emb st))
               /\ req_method req = POST) ->
  alerts (trace (h w sid emb st)) = [generic_alert]
  /\ In (download_failed (api_error r)) (trace (h w sid emb st))
  /\ (forall data x s,
        json r = inr data -> opt_prop data (js "error") = JStr (x :: s) ->
        exn_message (api_error r) = js "API Error: " ++ x :: s)
  /\ (forall e, json r = inl e ->
        exn_message (api_error r) = js "API Error: " ++ statusText r)
  /\ (forall data,
        json r = inr data -> truthy (opt_prop data (js "error")) = false ->
        exn_message (api_error r) = js "API Error: " ++ statusText r)
  /\ saved_as (trace (h w sid emb st)) = []
  /\ isLoading (final (h w sid emb st)) = false.
Proof.
  intros Hh Hr Hs Hreach.
  destruct (@backend_refusal h w sid emb st r Hh Hr Hs Hreach)
    as (Ha & Hl & Hn & Hf).
  repeat split; auto.
  - intros data x s Hj He. unfold api_error. rewrite Hj, He. reflexivity.
  - intros e Hj. unfold api_error. rewrite Hj. reflexivity.
  - intros data Hj He. unfold api_error, js_or. rewrite Hj, He. reflexivity.
  - rewrite Hf. reflexivity.
Qed.

Lemma backend_error_is_logged_not_alerted_witness :
  alerts (trace (Part000.handleDownload Examples.quota_exceeded
                   (JStr (js "999")) true Examples.ready))
  = [js "An error occurred during the download."]
  /\ In (download_failed (Error (js "API Error: quota exceeded")))
        (trace (Part000.handleDownload Examples.quota_exceeded
                  (JStr (js "999")) true Examples.ready)).
Proof.
  destruct (@backend_error_is_logged_not_alerted Part000.handleDownload
              Examples.quota_exceeded (JStr (js "999")) true Examples.ready
              (Examples.json_response 500 (js "Internal Server Error")
                 (JObj [(js "error", JStr (js "quota exceeded"))])))
    as (Ha & Hl & _).
  - right. left. reflexivity.
  - intros req _. reflexivity.
  - right. reflexivity.
  - eexists. split; [right; left; reflexivity | reflexivity].
  - split; [exact Ha | exact Hl].
Defined.

(** *** URL classification *)

(** C3.  For every tab URL of the shape scheme://[www.]wattpad.com/story/
    digits-rest, every variant of the classifier marks the page valid, sets
    the story id to those digits and sends no request. *)
Theorem direct_story_url_is_valid check w st tabs ds :
  In check classifiers ->
  chrome_tabs w = Some (inr tabs) ->
  direct_story_url (first_tab_url tabs) ds ->
  result_of (check w st) = Ok tt
  /\ isValidPage (final (check w st)) = Some true
  /\ storyId (final (check w st)) = JStr ds
  /\ requests (trace (check w st)) = [].
Proof.
  intros Hc Ht Hu. unfold classifiers in Hc. apply in_app_or in Hc.
  destruct Hc as [Hc | [<- | []]].
  - apply in_chapter_classifiers in Hc. destruct Hc as (api & ->).
    rewrite (checkUrl_direct api w st Ht (story_match Hu)).
    repeat split.
  - rewrite (app_checkUrl w st Ht), (app_story_match Hu). repeat split.
Qed.

Lemma direct_story_url_is_valid_witness :
  isValidPage (final (Part000.checkUrl Examples.story_page initial))
  = Some true
  /\ storyId (final (Part000.checkUrl Examples.story_page initial))
     = JStr (js "999")
  /\ requests (trace (Part000.checkUrl Examples.story_page initial)) = [].
Proof.
  apply (@direct_story_url_is_valid Part000.checkUrl Examples.story_page
           initial [{| tab_url := Some (js "https://www.wattpad.com/story/999-my-tale") |}]
           (js "999")).
  - left. reflexivity.
  - reflexivity.
  - exists (js "https://www.wattpad.com/"), (js "my-tale").
    split; [right; right; right; left; reflexivity|].
    split; [split; [discriminate | reflexivity] | reflexivity].
Defined.

Lemma chapter_555 :
  story_part_url (js "https://www.wattpad.com/555") (js "555").
Proof.
  exists (js "https://www.wattpad.com/"), [].
  split; [right; right; right; left; reflexivity|].
  split; [split; [discriminate | reflexivity]|].
  split; [exact I | reflexivity].
Defined.

(** C4, as the specification has it, fails in the variant of
    [src/chromium-extension/src/popup/App.tsx]: for the chapter URL
    [https://www.wattpad.com/555], whose lookup would be answered with
    [groupId] 999, it sends no request at all and marks the page invalid. *)
Lemma app_tsx_makes_no_lookup :
  story_part_url (js "https://www.wattpad.com/555") (js "555")
  /\ requests (trace (AppTsx.checkUrl Examples.chapter_of_999 initial))
     <> [lookup_request Examples.chapter_of_999 (js "555")]
  /\ requests (trace (AppTsx.checkUrl Examples.chapter_of_999 initial)) = []
  /\ isValidPage (final (AppTsx.checkUrl Examples.chapter_of_999 initial))
     = Some false.
Proof.
  split; [exact chapter_555|].
  split; [discriminate | split; reflexivity].
Qed.

(** C4, amended.  For every tab URL of the shape
    scheme://[www.]wattpad.com/digits (which never is a direct story URL),
    the classifier of each variant that has a chapter pattern sends exactly
    one request, to the chapter-metadata endpoint with those digits; when it
    is answered with a success status and a JSON body whose [groupId] is
    present (truthy, see C10), the page is valid and the story id is that
    value.  The variant of [App.tsx] has no chapter pattern: it sends no
    request and marks the page invalid. *)
Theorem chapter_url_one_lookup w st tabs ds :
  chrome_tabs w = Some (inr tabs) ->
  story_part_url (first_tab_url tabs) ds ->
  (forall check, In check chapter_classifiers ->
     requests (trace (check w st)) = [lookup_request w ds]
     /\ req_url (lookup_request w ds)
        = js "https://www.wattpad.com/api/v3/story_parts/" ++ ds
          ++ js "?fields=groupId"
     /\ (forall r data,
           fetch_result w (lookup_request w ds) = inr r ->
           ok r = true ->
           json r = inr data ->
           truthy (get_prop data (js "groupId")) = true ->
           isValidPage (final (check w st)) = Some true
           /\ storyId (final (check w st)) = get_prop data (js "groupId")))
  /\ AppTsx.checkUrl w st = (Ok tt, marked_invalid st, [TabsQuery]).
Proof.
  intros Ht Hu. split.
  - intros check Hc.
    apply in_chapter_classifiers in Hc. destruct Hc as (api & ->).
    destruct (@checkUrl_part api w st tabs ds Ht (part_not_story Hu)
                (part_match Hu)) as (_ & Hreq & Hfin).
    split; [exact Hreq | split; [reflexivity|]].
    intros r data Hf Hok Hj Hg. rewrite Hfin, Hf, Hok, Hj, Hg.
    split; reflexivity.
  - rewrite (app_checkUrl w st Ht), (app_part_no_match Hu). reflexivity.
Qed.

Lemma chapter_url_one_lookup_witness :
  requests (trace (Part000.checkUrl Examples.chapter_of_999 initial))
  = [lookup_request Examples.chapter_of_999 (js "555")]
  /\ isValidPage (final (Part000.checkUrl Examples.chapter_of_999 initial))
     = Some true
  /\ storyId (final (Part000.checkUrl Examples.chapter_of_999 initial))
     = JNum 999.
Proof.
  destruct (@chapter_url_one_lookup Examples.chapter_of_999
              initial [{| tab_url := Some (js "https://www.wattpad.com/555") |}]
              (js "555")) as (Hchap & _).
  - reflexivity.
  - exact chapter_555.
  - destruct (Hchap Part000.checkUrl) as (Hreq & _ & Hval).
    + left. reflexivity.
    + split; [exact Hreq|].
      apply (Hval (Examples.json_response 200 (js "OK")
                     (JObj [(js "groupId", JNum 999)]))
                  (JObj [(js "groupId", JNum 999)])); reflexivity.
Defined.

(** What every classifier does with a chapter URL whose lookup does not
    yield a truthy [groupId]. *)
Lemma unresolved_chapter check w st tabs ds :
  In check classifiers ->
  chrome_tabs w = Some (inr tabs) ->
  story_part_url (first_tab_url tabs) ds ->
  match fetch_result w (lookup_request w ds) with
  | inr r =>
      if ok r then
        match json r with
        | inr data => truthy (get_prop data (js "groupId")) = false
        | inl _ => True
        end
      else True
  | inl _ => True
  end ->
  final (check w st) = marked_invalid st
  /\ (List.length (requests (trace (check w st))) <= 1)%nat
  /\ (In check chapter_classifiers ->
      requests (trace (check w st)) = [lookup_request w ds]).
Proof.
  intros Hc Ht Hu Hl. unfold classifiers in Hc. apply in_app_or in Hc.
  destruct Hc as [Hc | [<- | []]].
  - apply in_chapter_classifiers in Hc. destruct Hc as (api & ->).
    destruct (@checkUrl_part api w st tabs ds Ht (part_not_story Hu)
                (part_match Hu)) as (_ & Hreq & Hfin).
    rewrite Hreq, Hfin. split; [|split; [simpl; lia | reflexivity]].
    destruct (fetch_result w (lookup_request w ds)) as [e|r]; [reflexivity|].
    destruct (ok r); [|reflexivity].
    destruct (json r) as [e|data]; [reflexivity|].
    rewrite Hl. reflexivity.
  - rewrite (app_checkUrl w st Ht), (app_part_no_match Hu).
    split; [reflexivity | split; [simpl; lia|]].
    intros Hin. apply in_chapter_classifiers in Hin. destruct Hin as (api & E).
    exfalso.
    assert (requests (trace (AppTsx.checkUrl w st))
            = requests (trace (checkUrl_with api w st))) as Hq
      by (rewrite E; reflexivity).
    destruct (@checkUrl_part api w st tabs ds Ht (part_not_story Hu)
                (part_match Hu)) as (_ & Hreq & _).
    rewrite Hreq, app_tsx_requests in Hq. discriminate.
Qed.

(** C5.  For every chapter URL whose lookup fails (the request is rejected,
    the status is not a success, the body does not parse) or is answered
    without a [groupId] property, every variant marks the page invalid and
    leaves the story id alone; at most one request is sent, and the variants
    with a chapter pattern send exactly the one lookup, never a second. *)
Theorem chapter_lookup_failure_is_invalid check w st tabs ds :
  In check classifiers ->
  chrome_tabs w = Some (inr tabs) ->
  story_part_url (first_tab_url tabs) ds ->
  lookup_unresolved (fetch_result w (lookup_request w ds)) ->
  isValidPage (final (check w st)) = Some false
  /\ final (check w st) = marked_invalid st
  /\ (List.length (requests (trace (check w st))) <= 1)%nat
  /\ (In check chapter_classifiers ->
      requests (trace (check w st)) = [lookup_request w ds]).
Proof.
  intros Hc Ht Hu Hl.
  destruct (@unresolved_chapter check w st tabs ds Hc Ht Hu) as (Hf & Hn & Hr).
  - unfold lookup_unresolved in Hl.
    destruct (fetch_result w (lookup_request w ds)) as [e|r]; [exact I|].
    destruct (ok r) eqn:Hok; [|exact I].
    destruct Hl as [Hs | [(e & He) | (data & Hd & Hg)]].
    + apply ok_false in Hs. congruence.
    + rewrite He. exact I.
    + rewrite Hd, Hg. reflexivity.
  - rewrite Hf. repeat split; assumption.
Qed.

Lemma chapter_lookup_failure_is_invalid_witness :
  isValidPage (final (Part000.checkUrl Examples.chapter_offline initial))
  = Some false
  /\ requests (trace (Part000.checkUrl Examples.chapter_offline initial))
     = [lookup_request Examples.chapter_offline (js "555")].
Proof.
  destruct (@chapter_lookup_failure_is_invalid Part000.checkUrl
              Examples.chapter_offline initial
              [{| tab_url := Some (js "https://www.wattpad.com/555") |}]
              (js "555")) as (Hinv & _ & _ & Hreq).
  - left. reflexivity.
  - reflexivity.
  - exact chapter_555.
  - exact I.
  - split; [exact Hinv | apply Hreq; left; reflexivity].
Defined.

(** A URL that a pattern rejects has not the shape the pattern stands for. *)
Lemma not_direct_story url :
  truthy_cap (str_match url wattpadStoryRegex) 1 = None ->
  forall ds, ~ direct_story_url url ds.
Proof.
  intros H ds Hd. apply story_match in Hd. congruence.
Defined.

Lemma not_story_part url :
  truthy_cap (str_match url wattpadStoryPartRegex) 1 = None ->
  forall ds, ~ story_part_url url ds.
Proof.
  intros H ds Hd. apply part_match in Hd. congruence.
Defined.

Lemma not_story_prefix url :
  truthy_cap (str_match url AppTsx.wattpadStoryRegex) 2 = None ->
  forall ds, ~ story_prefix_url url ds.
Proof.
  intros H ds Hd. apply app_prefix_match in Hd. congruence.
Defined.

(** C6, as the specification has it, fails in the variant of [App.tsx]:
    [https://www.wattpad.com/story/123] is neither a direct story URL (no
    dash follows the digits) nor a chapter URL, yet that variant marks the
    page valid, with story id 123. *)
Lemma app_tsx_accepts_undashed_story :
  (forall ds, ~ direct_story_url (js "https://www.wattpad.com/story/123") ds)
  /\ (forall ds, ~ story_part_url (js "https://www.wattpad.com/story/123") ds)
  /\ isValidPage (final (AppTsx.checkUrl Examples.undashed_story initial))
     = Some true
  /\ storyId (final (AppTsx.checkUrl Examples.undashed_story initial))
     = JStr (js "123").
Proof.
  split; [apply not_direct_story; reflexivity|].
  split; [apply not_story_part; reflexivity|].
  split; reflexivity.
Qed.

(** C6, amended.  The variants with a chapter pattern mark invalid every tab
    URL that is neither a direct story URL nor a chapter URL.  The variant of
    [App.tsx] marks invalid every tab URL that is not of the shape
    scheme://[www.]wattpad.com/story/digits..., where nothing need follow the
    digits.  In both cases no request is sent; the variant of [App.tsx]
    never sends one while classifying. *)
Theorem unrecognised_url_is_invalid w st tabs :
  chrome_tabs w = Some (inr tabs) ->
  ((forall ds, ~ direct_story_url (first_tab_url tabs) ds) ->
   (forall ds, ~ story_part_url (first_tab_url tabs) ds) ->
   forall check, In check chapter_classifiers ->
     result_of (check w st) = Ok tt
     /\ isValidPage (final (check w st)) = Some false
     /\ requests (trace (check w st)) = [])
  /\ ((forall ds, ~ story_prefix_url (first_tab_url tabs) ds) ->
      result_of (AppTsx.checkUrl w st) = Ok tt
      /\ isValidPage (final (AppTsx.checkUrl w st)) = Some false)
  /\ requests (trace (AppTsx.checkUrl w st)) = [].
Proof.
  intros Ht. split; [|split].
  - intros Hs Hp check Hc. apply in_chapter_classifiers in Hc.
    destruct Hc as (api & ->).
    rewrite (@checkUrl_other api w st tabs Ht).
    + repeat split.
    + now rewrite (story_no_match Hs).
    + now rewrite (part_no_match Hp).
  - intros Hs. rewrite (app_checkUrl w st Ht), (app_no_match Hs).
    split; reflexivity.
  - apply app_tsx_requests.
Qed.

Lemma unrecognised_url_is_invalid_witness :
  isValidPage (final (Part000.checkUrl Examples.other_page initial))
  = Some false
  /\ requests (trace (Part000.checkUrl Examples.other_page initial)) = []
  /\ isValidPage (final (AppTsx.checkUrl Examples.other_page initial))
     = Some false.
Proof.
  destruct (@unrecognised_url_is_invalid Examples.other_page
              initial [{| tab_url := Some (js "https://example.org/555") |}])
    as (Hchap & Happ & _).
  - reflexivity.
  - destruct (Hchap (@not_direct_story (js "https://example.org/555") eq_refl)
                (@not_story_part (js "https://example.org/555") eq_refl)
                Part000.checkUrl) as (_ & Hinv & Hreq).
    + left. reflexivity.
    + destruct (Happ (@not_story_prefix (js "https://example.org/555") eq_refl)) as (_ & Hinv').
      split; [exact Hinv | split; [exact Hreq | exact Hinv']].
Defined.

(** C10.  When the lookup is answered with a success status and a JSON body
    whose [groupId] is falsy (0, the empty string, [null], [false]), every
    classifier ends exactly as it does when the property is missing: the page
    is marked invalid and the story id is left alone.  The test is on the
    truth value of the property, not on its existence. *)
Theorem falsy_group_id_is_invalid check w st tabs ds r data :
  In check classifiers ->
  chrome_tabs w = Some (inr tabs) ->
  story_part_url (first_tab_url tabs) ds ->
  fetch_result w (lookup_request w ds) = inr r ->
  ok r = true ->
  json r = inr data ->
  truthy (get_prop data (js "groupId")) = false ->
  isValidPage (final (check w st)) = Some false
  /\ final (check w st) = marked_invalid st
  /\ (In check chapter_classifiers ->
      requests (trace (check w st)) = [lookup_request w ds]).
Proof.
  intros Hc Ht Hu Hf Hok Hj Hg.
  destruct (@unresolved_chapter check w st tabs ds Hc Ht Hu) as (Hfin & _ & Hr).
  - rewrite Hf, Hok, Hj. exact Hg.
  - rewrite Hfin. repeat split. exact Hr.
Qed.

Lemma falsy_group_id_is_invalid_witness :
  get_prop (JObj [(js "groupId", JNum 0)]) (js "groupId") = JNum 0
  /\ isValidPage (final (Part000.checkUrl Examples.chapter_of_zero initial))
     = Some false.
Proof.
  split; [reflexivity|].
  apply (@falsy_group_id_is_invalid Part000.checkUrl Examples.chapter_of_zero
           initial [{| tab_url := Some (js "https://www.wattpad.com/555") |}]
           (js "555")
           (Examples.json_response 200 (js "OK")
              (JObj [(js "groupId", JNum 0)]))
           (JObj [(js "groupId", JNum 0)])).
  - left. reflexivity.
  - reflexivity.
  - exact chapter_555.
  - reflexivity.
  - reflexivity.
  - reflexivity.
  - reflexivity.
Defined.

(** The falsy values a JSON body can give to a property. *)
Example falsy_values :
  List.map truthy [JNum 0; JStr []; JNull; JBool false; JUndefined]
  = [false; false; false; false; false]
  /\ List.map truthy [JNum 999; JStr (js "0"); JArr []; JObj []]
     = [true; true; true; true].
Proof. split; reflexivity. Qed.

(** Without the [chrome.tabs] API every variant takes the placeholder. *)
Lemma development_fallback check w st :
  In check classifiers ->
  chrome_tabs w = None ->
  check w st = (Ok tt, marked_valid (JStr (js "123456789")) st, []).
Proof.
  intros Hc Ht. unfold classifiers in Hc. apply in_app_or in Hc.
  destruct Hc as [Hc | [<- | []]].
  - apply in_chapter_classifiers in Hc. destruct Hc as (api & ->).
    unfold checkUrl_with. rewrite Ht. reflexivity.
  - unfold AppTsx.checkUrl. rewrite Ht. reflexivity.
Qed.

(** *** File names *)

(** C7.  In the variant that parses [Content-Disposition], a successful
    answer with the header [attachment; filename=Qabc.epubQ] (Q the double
    quote) is saved as [abc.epub]; with [filename*=UTF-8''a%20b.epub], alone
    or after [attachment; ], it is saved as [a b.epub]; and when both forms
    are present the percent-decoded [filename*] form wins. *)
Theorem content_disposition_names_the_file w sid emb st (r : Response) b :
  (forall req, req_method req = POST -> fetch_result w req = inr r) ->
  (exists cookies, cookies_getAll w (js "wattpad.com") = inr cookies) ->
  ok r = true ->
  blob r = inr b ->
  (content_disposition r = Some Examples.plain_header ->
   saved_as (trace (Part000.handleDownload w sid emb st)) = [js "abc.epub"])
  /\ (content_disposition r = Some Examples.utf8_header
      \/ content_disposition r = Some Examples.bare_utf8_header
      \/ content_disposition r = Some Examples.both_header ->
      saved_as (trace (Part000.handleDownload w sid emb st)) = [js "a b.epub"]).
Proof.
  intros Hr Hc Hok Hb. rewrite (@part000_saves w sid emb st r b Hr Hc Hok Hb).
  split.
  - intros ->. reflexivity.
  - intros [-> | [-> | ->]]; reflexivity.
Qed.

Lemma content_disposition_names_the_file_witness :
  saved_as (trace (Part000.handleDownload
                     (Examples.with_header Examples.plain_header)
                     (JStr (js "999")) true Examples.ready))
  = [js "abc.epub"]
  /\ saved_as (trace (Part000.handleDownload
                        (Examples.with_header Examples.utf8_header)
                        (JStr (js "999")) true Examples.ready))
     = [js "a b.epub"].
Proof.
  split.
  - apply (@content_disposition_names_the_file
             (Examples.with_header Examples.plain_header) (JStr (js "999"))
             true Examples.ready
             (Examples.file_response (Some Examples.plain_header))
             [80; 75; 3; 4]).
    + intros req _. reflexivity.
    + eexists. reflexivity.
    + reflexivity.
    + reflexivity.
    + reflexivity.
  - apply (@content_disposition_names_the_file
             (Examples.with_header Examples.utf8_header) (JStr (js "999"))
             true Examples.ready
             (Examples.file_response (Some Examples.utf8_header))
             [80; 75; 3; 4]).
    + intros req _. reflexivity.
    + eexists. reflexivity.
    + reflexivity.
    + reflexivity.
    + left. reflexivity.
Defined.

(** Other shapes of the header: the [filename*] key in any letter case and
    with blanks around the equals sign, an encoding that does not decode
    (kept as it is), and no header at all (the name falls back to the id). *)
Example header_shapes :
  Part000.filename_of_disposition
    (Some (js "attachment; FileName* = utf-8''caf%C3%A9.epub"))
  = Some (js "caf" ++ [233] ++ js ".epub")
  /\ Part000.filename_of_disposition
       (Some (js "attachment; filename*=UTF-8''100%.epub"))
     = Some (js "100%.epub")
  /\ Part000.filename_or_fallback (Part000.filename_of_disposition None)
       (JStr (js "123456789"))
     = js "story-123456789.epub".
Proof. repeat split. Qed.

(** *** The download button *)

(** C8.  The download operation is invoked by the button alone.  While a
    download is in progress the button of every variant is rendered
    disabled, so invoking the operation is a no-op: the state is unchanged
    and nothing is sent, logged or shown. *)
Theorem busy_click_is_noop click w st :
  In click download_buttons ->
  isLoading st = true ->
  click w st = (Ok tt, st, []).
Proof.
  intros Hc Hl. apply in_download_buttons in Hc.
  destruct Hc as (title & invalid & locks & h & ->).
  unfold click_button, render_with.
  destruct (isValidPage st) as [[|]|]; try reflexivity.
  rewrite Hl. reflexivity.
Qed.

Lemma busy_click_is_noop_witness :
  isLoading Examples.busy = true
  /\ Part000.clickDownload Examples.story_page Examples.busy
     = (Ok tt, Examples.busy, []).
Proof.
  split; [reflexivity|].
  apply (@busy_click_is_noop Part000.clickDownload).
  - left. reflexivity.
  - reflexivity.
Defined.

(** When idle, the same click runs the handler. *)
Lemma idle_click_runs_handler w st :
  isValidPage st = Some true ->
  isLoading st = false ->
  Part000.clickDownload w st
  = Part000.handleDownload w (storyId st) (embedImages st) st.
Proof.
  intros Hv Hl. unfold Part000.clickDownload, click_button, Part000.render,
    render_with. rewrite Hv, Hl. reflexivity.
Qed.

(** *** The title lookup *)

(** A rejected title lookup ends the run at once, in every world. *)
Lemma title_rejection_is_fatal w sid emb st e :
  fetch_result w (get_request (Part001.story_endpoint sid) []) = inl e ->
  Part001.handleDownload w sid emb st
  = (Ok tt, idle st,
     [Fetch (get_request (Part001.story_endpoint sid) []);
      download_failed e; Alert generic_alert]).
Proof.
  intros H. unfold Part001.handleDownload. run_monad. rewrite H. reflexivity.
Qed.

(** C9 does not hold when the lookup throws: with the story-metadata
    endpoint unreachable, the variant that fetches the title shows the alert
    and stops; the backend is never asked and nothing is saved. *)
Theorem title_network_error_aborts :
  requests (trace (Part001.handleDownload Examples.title_offline
                     (JStr (js "999")) true Examples.ready))
  = [get_request (Part001.story_endpoint (JStr (js "999"))) []]
  /\ saved_as (trace (Part001.handleDownload Examples.title_offline
                        (JStr (js "999")) true Examples.ready)) = []
  /\ alerts (trace (Part001.handleDownload Examples.title_offline
                      (JStr (js "999")) true Examples.ready))
     = [generic_alert].
Proof. repeat split. Qed.

(** The other failures of the lookup are not fatal: on a non-success status
    or an unreadable body without a title the file is saved under the name
    made from the id. *)
Lemma title_fallback w sid emb st (r0 r : Response) b :
  fetch_result w (get_request (Part001.story_endpoint sid) []) = inr r0 ->
  opt_prop (match json r0 with inr v => v | inl _ => JObj [] end) (js "title")
  = JUndefined ->
  (forall req, req_method req = POST -> fetch_result w req = inr r) ->
  (exists cookies, cookies_getAll w (js "wattpad.com") = inr cookies) ->
  ok r = true ->
  blob r = inr b ->
  saved_as (trace (Part001.handleDownload w sid emb st))
  = [replace_all Part001.unsafe_char (js "_") (js "story_" ++ to_string sid)
     ++ js ".epub"].
Proof.
  intros H0 Ht Hr (cookies & Hc) Hok Hb.
  unfold Part001.handleDownload. run_monad. rewrite H0. cbv beta iota.
  destruct (json r0) as [e|v] eqn:Hj; destruct (ok r0); cbv [negb];
    cbv beta iota; rewrite Ht; cbv [js_or truthy Part001.sanitize ret];
    cbv beta iota; rewrite Hc; settle Hr; observe;
    first [reflexivity | congruence].
Qed.

(* ================================================================== *)
(** ** Further properties of the code *)

Module RunFacts.
Import Js RegExp Popup Spec Variants Runs.
Import ClassifierFacts DownloadFacts.

Ltac cases_of_world w :=
  settle (fun (req : Request) (_ : req_method req = POST) =>
            eq_refl (fetch_result w req)).

(** The three shapes of [handleDownload], as one trace each. *)
Lemma part000_run w sid emb st :
  Part000.handleDownload w sid emb st
  = (Ok tt, idle st,
     backend_phase w Part000.apiEndpoint sid emb
       (fun r b =>
          [AnchorClick (objectURL w b)
             (Part000.filename_or_fallback
                (Part000.filename_of_disposition (content_disposition r)) sid);
           RevokeObjectURL (objectURL w b)])).
Proof.
  unfold Part000.handleDownload, backend_phase, backend_request, failure,
    download_failed, api_error, generic_alert.
  run_monad. cases_of_world w; reflexivity.
Qed.

Lemma native_run endpoint w sid emb st :
  Native.handleDownload_at endpoint w sid emb st
  = (Ok tt, idle st,
     backend_phase w endpoint sid emb
       (fun r b =>
          [ChromeDownload (objectURL w b)
             (js "story_" ++ to_string sid ++ js ".epub")
             [RevokeObjectURL (objectURL w b)]])).
Proof.
  unfold Native.handleDownload_at, backend_phase, backend_request, failure,
    download_failed, api_error, generic_alert.
  run_monad. cases_of_world w; reflexivity.
Qed.

Lemma part001_run w sid emb st :
  Part001.handleDownload w sid emb st
  = (Ok tt, idle st,
     Fetch (get_request (Part001.story_endpoint sid) []) ::
     match fetch_result w (get_request (Part001.story_endpoint sid) []) with
     | inl e => failure e
     | inr r0 =>
         (if ok r0 then []
          else [Console Warn [LStr (js "Could not fetch story title from Wattpad API. Using story ID as fallback.")]])
         ++ match js_or (opt_prop (match json r0 with
                                   | inr v => v
                                   | inl _ => JObj []
                                   end) (js "title"))
                        (JStr (js "story_" ++ to_string sid)) with
            | JStr t =>
                backend_phase w Part001.apiEndpoint sid emb
                  (fun r b =>
                     [AnchorClick (objectURL w b)
                        (replace_all Part001.unsafe_char (js "_") t
                         ++ js ".epub");
                      RevokeObjectURL (objectURL w b)])
            | _ => failure (TypeError (js "title.replace is not a function"))
            end
     end).
Proof.
  unfold Part001.handleDownload, backend_phase, backend_request, failure,
    download_failed, api_error, generic_alert.
  run_monad.
  destruct (fetch_result w (get_request (Part001.story_endpoint sid) []))
    as [e|r0]; [reflexivity|].
  cbv beta iota.
  destruct (ok r0); cbv [negb]; cbv beta iota;
    destruct (json r0) as [e|v]; cbv beta iota;
    match goal with |- context [Part001.sanitize ?t] =>
      destruct t; cbv [Part001.sanitize ret throw] end;
    cases_of_world w; reflexivity.
Qed.

Lemma in_backends h ep :
  In (h, ep) backends ->
  (h = Part001.handleDownload /\ ep = Part001.apiEndpoint)
  \/ (h = Part000.handleDownload /\ ep = Part000.apiEndpoint)
  \/ (h = Native.handleDownload_at ep).
Proof.
  unfold backends, In.
  intros [E | [E | [E | [E | []]]]]; inversion E; subst; auto.
Qed.

Lemma backends_cover h :
  In h downloaders -> exists ep, In (h, ep) backends.
Proof.
  unfold downloaders, plain_downloaders, backends, In.
  intros [<- | [<- | [<- | [<- | []]]]]; eexists; eauto 6.
Qed.

Lemma download_ends_in_idle h w sid emb st :
  In h downloaders -> final (h w sid emb st) = idle st.
Proof.
  intros Hh. apply in_downloaders in Hh.
  destruct Hh as [-> | [-> | [endpoint ->]]];
    [rewrite part001_run | rewrite part000_run | rewrite native_run];
    reflexivity.
Qed.

Ltac observe_all :=
  cbn [app requests alerts saved_as cookie_reads created_for revoked
       trace final result_of fst snd List.map List.length].

(** Rewrite the run of a handler of [backends] into its trace. *)
Ltac by_backend H :=
  apply in_backends in H;
  destruct H as [[-> ->] | [[-> ->] | ->]];
  [ rewrite part001_run | rewrite part000_run | rewrite native_run ].

(** Split a trace into the outcomes of the world. *)
Ltac split_run :=
  unfold backend_phase, failure, download_failed;
  repeat match goal with
         | |- context [match ?x with inl _ => _ | inr _ => _ end] =>
             destruct x eqn:?
         | |- context [if ok ?r then _ else _] => destruct (ok r) eqn:?
         | |- context [match ?v with JStr _ => _ | _ => _ end] =>
             destruct v eqn:?
         end;
  observe_all.

End RunFacts.

Import RunFacts Runs.

(** *** What a download run does and never does *)

(** X1.  Whatever happens, a run of [handleDownload] changes nothing but the
    busy flag: classification, story id and the image setting are those of
    the start, and the flag is off. *)
Theorem download_changes_only_the_flag h w sid emb st :
  In h downloaders ->
  final (h w sid emb st) = idle st.
Proof.
  intros Hh. apply backends_cover in Hh. destruct Hh as (ep & Hh).
  by_backend Hh; reflexivity.
Qed.

Lemma download_changes_only_the_flag_witness :
  final (Part001.handleDownload Examples.title_offline (JStr (js "999"))
           false Examples.busy)
  = Examples.ready.
Proof.
  apply (@download_changes_only_the_flag Part001.handleDownload).
  left. reflexivity.
Defined.

(** X2.  Every run ends in one of two ways: exactly one file is handed to the
    browser and no alert is shown, or nothing is saved and the one fixed
    alert is shown. *)
Theorem download_saves_or_alerts h w sid emb st :
  In h downloaders ->
  (exists name, saved_as (trace (h w sid emb st)) = [name]
                /\ alerts (trace (h w sid emb st)) = [])
  \/ (saved_as (trace (h w sid emb st)) = []
      /\ alerts (trace (h w sid emb st)) = [generic_alert]).
Proof.
  intros Hh. apply backends_cover in Hh. destruct Hh as (ep & Hh).
  by_backend Hh; split_run; eauto.
Qed.

Lemma download_saves_or_alerts_witness :
  (exists name,
     saved_as (trace (AppTsx.handleDownload Examples.story_page
                        (JStr (js "999")) true Examples.ready)) = [name]
     /\ alerts (trace (AppTsx.handleDownload Examples.story_page
                         (JStr (js "999")) true Examples.ready)) = [])
  \/ (saved_as (trace (AppTsx.handleDownload Examples.story_page
                         (JStr (js "999")) true Examples.ready)) = []
      /\ alerts (trace (AppTsx.handleDownload Examples.story_page
                          (JStr (js "999")) true Examples.ready))
         = [generic_alert]).
Proof.
  apply (@download_saves_or_alerts AppTsx.handleDownload).
  right. right. right. left. reflexivity.
Defined.

(** X3.  A file is saved only if the cookie store could be read, the backend
    answered the POST with a success status and the body of the answer could
    be read.  In the variants without a title lookup this is also enough. *)
Theorem saving_needs_backend_success h ep w sid emb st :
  In (h, ep) backends ->
  (saved_as (trace (h w sid emb st)) <> [] ->
   exists cookies r b,
     cookies_getAll w (js "wattpad.com") = inr cookies
     /\ fetch_result w (backend_request ep sid emb cookies) = inr r
     /\ ok r = true
     /\ blob r = inr b)
  /\ (In h plain_downloaders ->
      forall cookies r b,
        cookies_getAll w (js "wattpad.com") = inr cookies ->
        fetch_result w (backend_request ep sid emb cookies) = inr r ->
        ok r = true ->
        blob r = inr b ->
        exists name, saved_as (trace (h w sid emb st)) = [name]).
Proof.
  intros Hh. split.
  - by_backend Hh; split_run; intros Hs; try congruence; eauto 8.
  - intros Hp cookies r b Hc Hf Hok Hb.
    assert (exists d,
              trace (h w sid emb st) = backend_phase w ep sid emb d
              /\ forall r b, exists name, saved_as (d r b) = [name])
      as (d & -> & Hd).
    { unfold plain_downloaders, In in Hp.
      apply in_backends in Hh.
      destruct Hh as [[-> ->] | [[-> ->] | ->]].
      - exfalso. destruct Hp as [E | [E | [E | []]]].
        + assert (requests (trace (Part000.handleDownload Cases.cookies_denied
                                     JNull true initial))
                  = requests (trace (Part001.handleDownload
                                       Cases.cookies_denied JNull true initial)))
            as Hq by (rewrite E; reflexivity).
          vm_compute in Hq. discriminate.
        + assert (requests (trace (Part002.handleDownload Cases.cookies_denied
                                     JNull true initial))
                  = requests (trace (Part001.handleDownload
                                       Cases.cookies_denied JNull true initial)))
            as Hq by (rewrite E; reflexivity).
          vm_compute in Hq. discriminate.
        + assert (requests (trace (AppTsx.handleDownload Cases.cookies_denied
                                     JNull true initial))
                  = requests (trace (Part001.handleDownload
                                       Cases.cookies_denied JNull true initial)))
            as Hq by (rewrite E; reflexivity).
          vm_compute in Hq. discriminate.
      - rewrite part000_run. eexists. split; [reflexivity|].
        intros; eexists; reflexivity.
      - rewrite native_run. eexists. split; [reflexivity|].
        intros; eexists; reflexivity. }
    unfold backend_phase. rewrite Hc, Hf, Hok, Hb. observe_all.
    destruct (Hd r b) as (name & Hn).
    exists name. exact Hn.
Qed.

Lemma saving_needs_backend_success_witness :
  exists name,
    saved_as (trace (Part002.handleDownload Examples.story_page
                       (JStr (js "999")) true Examples.ready)) = [name].
Proof.
  destruct (@saving_needs_backend_success Part002.handleDownload
              Part002.apiEndpoint Examples.story_page (JStr (js "999")) true
              Examples.ready) as (_ & Hsuf).
  - right. right. left. reflexivity.
  - apply (Hsuf (or_intror (or_introl eq_refl))
             [{| cookie_name := js "token"; cookie_value := js "abc" |}]
             (Examples.file_response None) [80; 75; 3; 4]); reflexivity.
Defined.

(** X4.  A run sends at most two requests and never repeats one: in the
    variant with the title lookup first the body-less GET for the title, and
    in every variant at most one POST, to the backend of that variant, whose
    body holds the story id and the image flag of the click and exactly the
    cookies the store returned.  The cookie store is read at most once, for
    [wattpad.com]. *)
Theorem download_request_discipline h ep w sid emb st :
  In (h, ep) backends ->
  (exists pre,
     (pre = [] \/ (h = Part001.handleDownload
                   /\ pre = [get_request (Part001.story_endpoint sid) []]))
     /\ (requests (trace (h w sid emb st)) = pre
         \/ exists cookies,
              cookies_getAll w (js "wattpad.com") = inr cookies
              /\ requests (trace (h w sid emb st))
                 = pre ++ [backend_request ep sid emb cookies]))
  /\ (cookie_reads (trace (h w sid emb st)) = []
      \/ cookie_reads (trace (h w sid emb st)) = [js "wattpad.com"]).
Proof.
  intros Hh. by_backend Hh.
  - split.
    + exists [get_request (Part001.story_endpoint sid) []].
      split; [right; split; reflexivity|].
      split_run; eauto.
    + split_run; eauto.
  - split; [exists []; split; [left; reflexivity|] |]; split_run; eauto.
  - split; [exists []; split; [left; reflexivity|] |]; split_run; eauto.
Qed.

Lemma download_request_discipline_witness :
  requests (trace (Part001.handleDownload (Cases.titled 200 (JObj []))
                     (JStr (js "999")) true Examples.ready))
  = [get_request (Part001.story_endpoint (JStr (js "999"))) [];
     backend_request Part001.apiEndpoint (JStr (js "999")) true
       [{| cookie_name := js "token"; cookie_value := js "abc" |}]]
  /\ (cookie_reads (trace (Part001.handleDownload
                             (Cases.titled 200 (JObj []))
                             (JStr (js "999")) true Examples.ready)) = []
      \/ cookie_reads (trace (Part001.handleDownload
                                (Cases.titled 200 (JObj []))
                                (JStr (js "999")) true Examples.ready))
         = [js "wattpad.com"]).
Proof.
  destruct (@download_request_discipline Part001.handleDownload
              Part001.apiEndpoint (Cases.titled 200 (JObj []))
              (JStr (js "999")) true Examples.ready) as (_ & Hc).
  - right. left. reflexivity.
  - split; [reflexivity | exact Hc].
Defined.

(** X5.  When the cookie store cannot be read, no request with a body leaves
    the popup: the backend is never contacted, nothing is saved and the alert
    is shown. *)
Theorem unreadable_cookies_stop_the_download h w sid emb st e :
  In h downloaders ->
  cookies_getAll w (js "wattpad.com") = inl e ->
  (forall req, In req (requests (trace (h w sid emb st))) ->
               req_method req = GET /\ req_body req = None)
  /\ saved_as (trace (h w sid emb st)) = []
  /\ alerts (trace (h w sid emb st)) = [generic_alert]
  /\ (In h plain_downloaders ->
      trace (h w sid emb st)
      = [CookiesGetAll (js "wattpad.com"); download_failed e;
         Alert generic_alert]).
Proof.
  intros Hh Hc. pose proof Hh as Hd.
  apply backends_cover in Hh. destruct Hh as (ep & Hh).
  by_backend Hh.
  - split; [|split; [|split]].
    + unfold backend_phase. rewrite Hc. split_run;
        intros req [<- | []]; split; reflexivity.
    + unfold backend_phase. rewrite Hc. split_run; reflexivity.
    + unfold backend_phase. rewrite Hc. split_run; reflexivity.
    + intros Hp. exfalso. unfold plain_downloaders, In in Hp.
      assert (forall h', h' = Part001.handleDownload ->
                requests (trace (h' Cases.cookies_denied JNull true initial))
                <> []) as Hne
        by (intros h' ->; vm_compute; discriminate).
      destruct Hp as [E | [E | [E | []]]];
        apply (Hne _ E); reflexivity.
  - unfold backend_phase. rewrite Hc. observe_all.
    split; [intros req [] | repeat split].
  - unfold backend_phase. rewrite Hc. observe_all.
    split; [intros req [] | repeat split].
Qed.

Lemma unreadable_cookies_stop_the_download_witness :
  trace (Part000.handleDownload Cases.cookies_denied (JStr (js "999")) true
           Examples.ready)
  = [CookiesGetAll (js "wattpad.com");
     download_failed (Error (js "No permission")); Alert generic_alert].
Proof.
  destruct (@unreadable_cookies_stop_the_download Part000.handleDownload
              Cases.cookies_denied (JStr (js "999")) true Examples.ready
              (Error (js "No permission"))) as (_ & _ & _ & Ht).
  - right. left. reflexivity.
  - reflexivity.
  - apply Ht. left. reflexivity.
Defined.

(** X6.  When the backend answers with a success status but the body cannot
    be read, no object URL is made, nothing is saved and the alert is shown;
    the error of the body is what the console gets. *)
Theorem unreadable_body_is_a_failure h w sid emb st (r : Response) e :
  In h downloaders ->
  (forall req, req_method req = POST -> fetch_result w req = inr r) ->
  ok r = true ->
  blob r = inl e ->
  created_for (trace (h w sid emb st)) = []
  /\ saved_as (trace (h w sid emb st)) = []
  /\ alerts (trace (h w sid emb st)) = [generic_alert]
  /\ ((exists req, In (Fetch req) (trace (h w sid emb st))
                   /\ req_method req = POST) ->
      In (download_failed e) (trace (h w sid emb st))).
Proof.
  intros Hh Hr Hok Hb.
  apply backends_cover in Hh. destruct Hh as (ep & Hh).
  assert (forall cookies,
            fetch_result w (backend_request ep sid emb cookies) = inr r)
    as Hf by (intros; apply Hr; reflexivity).
  by_backend Hh; unfold backend_phase, failure;
    repeat match goal with
           | |- context [match cookies_getAll ?w ?d with _ => _ end] =>
               destruct (cookies_getAll w d) eqn:?
           | |- context [fetch_result ?w (backend_request ?a ?b ?c ?d)] =>
               rewrite (Hf d), Hok, Hb
           | |- context [match fetch_result ?w ?q with _ => _ end] =>
               destruct (fetch_result w q) eqn:?
           | |- context [if ok ?r then _ else _] => destruct (ok r) eqn:?
           | |- context [match ?v with JStr _ => _ | _ => _ end] =>
               destruct v eqn:?
           end;
    unfold download_failed; observe_all;
    (repeat split; [try no_post; intros _; in_list]).
Qed.

Lemma unreadable_body_is_a_failure_witness :
  created_for (trace (Part000.handleDownload Cases.body_lost
                        (JStr (js "999")) true Examples.ready)) = []
  /\ alerts (trace (Part000.handleDownload Cases.body_lost
                      (JStr (js "999")) true Examples.ready))
     = [generic_alert].
Proof.
  destruct (@unreadable_body_is_a_failure Part000.handleDownload
              Cases.body_lost (JStr (js "999")) true Examples.ready
              Cases.broken_body Examples.failed_to_fetch)
    as (Hc & _ & Ha & _).
  - right. left. reflexivity.
  - intros req _. reflexivity.
  - reflexivity.
  - reflexivity.
  - split; [exact Hc | exact Ha].
Defined.

(** X7.  A run makes at most one object URL.  Where the file is saved
    through a link (part_000, part_001) the run itself revokes the URL it
    made, and leaves nothing with the browser.  Where the file is saved
    through [chrome.downloads.download] (part_002, App.tsx) the run itself
    revokes nothing: revoking the URL it made is the callback it leaves with
    the browser, so that URL is released only if the browser calls back,
    and then after [handleDownload] has returned. *)
Theorem release_of_object_urls h w sid emb st :
  In h downloaders ->
  (List.length (created_for (trace (h w sid emb st))) <= 1)%nat
  /\ (In h [Part000.handleDownload; Part001.handleDownload] ->
      revoked (trace (h w sid emb st))
      = List.map (objectURL w) (created_for (trace (h w sid emb st)))
      /\ left_with_browser (trace (h w sid emb st)) = [])
  /\ (In h [Part002.handleDownload; AppTsx.handleDownload] ->
      revoked (trace (h w sid emb st)) = []
      /\ left_with_browser (trace (h w sid emb st))
         = List.map (fun b => RevokeObjectURL (objectURL w b))
             (created_for (trace (h w sid emb st)))).
Proof.
  intros Hh. split; [|split].
  - apply backends_cover in Hh. destruct Hh as (ep & Hh).
    by_backend Hh; split_run; lia.
  - intros [<- | [<- | []]];
      [rewrite part000_run | rewrite part001_run];
      split_run; cbn [left_with_browser app]; split; reflexivity.
  - intros [<- | [<- | []]];
      unfold Part002.handleDownload, AppTsx.handleDownload;
      rewrite native_run; split_run; cbn [left_with_browser app List.map];
      split; reflexivity.
Qed.

Lemma release_of_object_urls_witness :
  revoked (trace (AppTsx.handleDownload Examples.story_page
                    (JStr (js "999")) true Examples.ready)) = []
  /\ left_with_browser (trace (AppTsx.handleDownload Examples.story_page
                                 (JStr (js "999")) true Examples.ready))
     = [RevokeObjectURL (js "blob:popup/0")].
Proof.
  destruct (@release_of_object_urls AppTsx.handleDownload
              Examples.story_page (JStr (js "999")) true Examples.ready)
    as (_ & _ & Hn).
  - right. right. right. left. reflexivity.
  - apply Hn. right. left. reflexivity.
Defined.

(** *** File names *)

(** X8.  The variants that name the file themselves never look at the
    answer for a name: whatever is saved is called story_<id>.epub, with the
    story id printed as a template literal prints it.  This is for a story
    id that is a string, or a number that is a safe integer (or any other
    value whose printing prints safe integers only). *)
Theorem self_made_name h w sid emb st name :
  In h [Part002.handleDownload; AppTsx.handleDownload] ->
  safe_numbers sid = true ->
  In name (saved_as (trace (h w sid emb st))) ->
  name = js "story_" ++ to_string sid ++ js ".epub".
Proof.
  intros [<- | [<- | []]] _;
    unfold Part002.handleDownload, AppTsx.handleDownload;
    rewrite native_run; split_run; cbn [In]; intuition.
Qed.

Lemma self_made_name_witness :
  saved_as (trace (Part002.handleDownload
                     (Examples.with_header Examples.plain_header)
                     (JNum 999) true Examples.ready))
  = [js "story_999.epub"]
  /\ js "story_999.epub" = js "story_" ++ to_string (JNum 999) ++ js ".epub".
Proof.
  split; [reflexivity|].
  apply (@self_made_name Part002.handleDownload
           (Examples.with_header Examples.plain_header) (JNum 999) true
           Examples.ready).
  - left. reflexivity.
  - reflexivity.
  - left. reflexivity.
Defined.

Lemma replace_all_length p (c : char) s :
  List.length (replace_all p [c] s) = List.length s.
Proof.
  unfold replace_all. induction s as [|x s IH]; simpl; [reflexivity|].
  destruct (p x); simpl; now rewrite IH.
Qed.

Lemma replace_all_clean p (c : char) s :
  p c = false ->
  forallb (fun x => negb (p x)) (replace_all p [c] s) = true.
Proof.
  intros Hc. unfold replace_all. induction s as [|x s IH]; simpl; auto.
  destruct (p x) eqn:E; simpl; rewrite ?Hc, ?E, IH; reflexivity.
Qed.

Lemma replace_all_fixed p (c : char) s :
  forallb (fun x => negb (p x)) s = true -> replace_all p [c] s = s.
Proof.
  unfold replace_all. induction s as [|x s IH]; simpl; auto.
  intros H. apply andb_prop in H. destruct H as [Hx Hs].
  apply negb_true_iff in Hx. rewrite Hx. simpl. now rewrite IH.
Qed.

(** X9.  Replacing the nine unsafe characters by underscores keeps the
    length of a title, leaves none of the nine behind, changes nothing in a
    title that has none, and so changes nothing when done twice. *)
Theorem sanitizing_titles t :
  List.length (replace_all Part001.unsafe_char (js "_") t) = List.length t
  /\ forallb (fun x => negb (Part001.unsafe_char x))
       (replace_all Part001.unsafe_char (js "_") t) = true
  /\ (forallb (fun x => negb (Part001.unsafe_char x)) t = true ->
      replace_all Part001.unsafe_char (js "_") t = t)
  /\ replace_all Part001.unsafe_char (js "_")
       (replace_all Part001.unsafe_char (js "_") t)
     = replace_all Part001.unsafe_char (js "_") t.
Proof.
  split; [apply (replace_all_length Part001.unsafe_char 95)|].
  split; [apply (replace_all_clean Part001.unsafe_char 95); reflexivity|].
  split; [apply (replace_all_fixed Part001.unsafe_char 95)|].
  apply (replace_all_fixed Part001.unsafe_char 95).
  apply (replace_all_clean Part001.unsafe_char 95). reflexivity.
Qed.

(** X10.  In the variant with the title lookup every name handed to the
    browser is a non-empty stem without any of the nine unsafe characters,
    followed by [.epub]. *)
Theorem titled_names_are_safe w sid emb st name :
  In name (saved_as (trace (Part001.handleDownload w sid emb st))) ->
  exists stem,
    name = stem ++ js ".epub"
    /\ stem <> []
    /\ forallb (fun x => negb (Part001.unsafe_char x)) stem = true.
Proof.
  rewrite part001_run.
  unfold backend_phase, failure, download_failed.
  destruct (fetch_result w (get_request (Part001.story_endpoint sid) []))
    as [e|r0]; [observe_all; intros []|].
  destruct (js_or _ _) as [| | | |t| |] eqn:Ht;
    try (destruct (ok r0); observe_all; intros []).
  assert (t <> []) as Hne.
  { unfold js_or in Ht.
    destruct (truthy (opt_prop _ _)) eqn:Hv.
    - rewrite Ht in Hv. destruct t; [discriminate | discriminate].
    - inversion Ht. discriminate. }
  intros Hin.
  assert (name = replace_all Part001.unsafe_char (js "_") t ++ js ".epub")
    as ->.
  { revert Hin. destruct (ok r0); split_run; cbn [In]; intuition. }
  eexists. split; [reflexivity|]. split.
  - intros E. apply (f_equal (@List.length _)) in E.
    rewrite (replace_all_length Part001.unsafe_char 95) in E.
    destruct t; [congruence | discriminate].
  - apply (replace_all_clean Part001.unsafe_char 95). reflexivity.
Qed.

Lemma titled_names_are_safe_witness :
  saved_as (trace (Part001.handleDownload
                     (Cases.titled 200
                        (JObj [(js "title", JStr (js "A/B: C?"))]))
                     (JStr (js "999")) true Examples.ready))
  = [js "A_B_ C_.epub"]
  /\ exists stem,
       js "A_B_ C_.epub" = stem ++ js ".epub"
       /\ stem <> []
       /\ forallb (fun x => negb (Part001.unsafe_char x)) stem = true.
Proof.
  split; [reflexivity|].
  apply (@titled_names_are_safe
           (Cases.titled 200 (JObj [(js "title", JStr (js "A/B: C?"))]))
           (JStr (js "999")) true Examples.ready).
  left. reflexivity.
Defined.

(** X11.  A title in the answer of the lookup is used whenever it is a
    non-empty string, also when the status of that answer is not a success:
    with the backend answering well the file is saved as the sanitized title
    followed by [.epub]. *)
Theorem title_names_the_file w sid emb st (r0 r : Response) data x t b :
  fetch_result w (get_request (Part001.story_endpoint sid) []) = inr r0 ->
  json r0 = inr data ->
  opt_prop data (js "title") = JStr (x :: t) ->
  (forall req, req_method req = POST -> fetch_result w req = inr r) ->
  (exists cookies, cookies_getAll w (js "wattpad.com") = inr cookies) ->
  ok r = true ->
  blob r = inr b ->
  saved_as (trace (Part001.handleDownload w sid emb st))
  = [replace_all Part001.unsafe_char (js "_") (x :: t) ++ js ".epub"].
Proof.
  intros H0 Hj Ht Hr (cookies & Hc) Hok Hb.
  rewrite part001_run, H0, Hj, Ht.
  unfold js_or, truthy, backend_phase.
  rewrite Hc, (Hr (backend_request _ _ _ _) eq_refl), Hok, Hb.
  destruct (ok r0); reflexivity.
Qed.

Lemma title_names_the_file_witness :
  saved_as (trace (Part001.handleDownload
                     (Cases.titled 404
                        (JObj [(js "title", JStr (js "Mine"))]))
                     (JStr (js "999")) true Examples.ready))
  = [js "Mine.epub"].
Proof.
  apply (@title_names_the_file
           (Cases.titled 404 (JObj [(js "title", JStr (js "Mine"))]))
           (JStr (js "999")) true Examples.ready
           (Examples.json_response 404 (js "")
              (JObj [(js "title", JStr (js "Mine"))]))
           (Examples.file_response None)
           (JObj [(js "title", JStr (js "Mine"))]) 77 (js "ine")
           [80; 75; 3; 4]).
  - reflexivity.
  - reflexivity.
  - reflexivity.
  - intros req Hm. simpl. rewrite Hm. reflexivity.
  - eexists. reflexivity.
  - reflexivity.
  - reflexivity.
Defined.

(** X12.  A title that is truthy but not a string (a number, [true], an
    array, an object) has no [replace]: the run fails before the cookies are
    read, the backend is never asked, nothing is saved and the alert is
    shown. *)
Theorem non_string_title_aborts w sid emb st (r0 : Response) data v :
  fetch_result w (get_request (Part001.story_endpoint sid) []) = inr r0 ->
  json r0 = inr data ->
  opt_prop data (js "title") = v ->
  truthy v = true ->
  (forall s, v <> JStr s) ->
  requests (trace (Part001.handleDownload w sid emb st))
  = [get_request (Part001.story_endpoint sid) []]
  /\ cookie_reads (trace (Part001.handleDownload w sid emb st)) = []
  /\ saved_as (trace (Part001.handleDownload w sid emb st)) = []
  /\ alerts (trace (Part001.handleDownload w sid emb st)) = [generic_alert]
  /\ In (download_failed (TypeError (js "title.replace is not a function")))
        (trace (Part001.handleDownload w sid emb st)).
Proof.
  intros H0 Hj Ht Hv Hs.
  rewrite part001_run, H0, Hj, Ht. unfold js_or. rewrite Hv.
  unfold failure, download_failed.
  destruct v; try discriminate; try (exfalso; eapply Hs; reflexivity);
    destruct (ok r0); observe_all; repeat split; in_list.
Qed.

Lemma non_string_title_aborts_witness :
  requests (trace (Part001.handleDownload
                     (Cases.titled 200 (JObj [(js "title", JNum 7)]))
                     (JStr (js "999")) true Examples.ready))
  = [get_request (Part001.story_endpoint (JStr (js "999"))) []]
  /\ alerts (trace (Part001.handleDownload
                      (Cases.titled 200 (JObj [(js "title", JNum 7)]))
                      (JStr (js "999")) true Examples.ready))
     = [generic_alert].
Proof.
  destruct (@non_string_title_aborts
              (Cases.titled 200 (JObj [(js "title", JNum 7)]))
              (JStr (js "999")) true Examples.ready
              (Examples.json_response 200 (js "")
                 (JObj [(js "title", JNum 7)]))
              (JObj [(js "title", JNum 7)]) (JNum 7))
    as (Hq & _ & _ & Ha & _).
  - reflexivity.
  - reflexivity.
  - reflexivity.
  - reflexivity.
  - intros s. discriminate.
  - split; [exact Hq | exact Ha].
Defined.

(* ================================================================== *)
(** ** The Content-Disposition header, in general *)

Module HeaderFacts.
Import Js RegExp RegExpFacts PatternFacts Popup Runs.

(** Whatever [match] finds is a way of matching at some index. *)
Lemma search_sound ic r : forall s n res,
  search ic r n s = Some res ->
  exists pre s1 n1 s2 c1,
    s = pre ++ s1 /\ matches ic r (List.length pre + n) s1 [] n1 s2 c1.
Proof.
  induction s as [|x s IH]; intros n res H; simpl in H.
  - destruct (m ic r n [] [] _) eqn:E; [|discriminate].
    apply m_sound in E. destruct E as (n1 & s2 & c1 & Hp & _).
    exists [], [], n1, s2, c1. auto.
  - destruct (m ic r n (x :: s) [] _) eqn:E.
    + apply m_sound in E. destruct E as (n1 & s2 & c1 & Hp & _).
      exists [], (x :: s), n1, s2, c1. auto.
    + apply IH in H. destruct H as (pre & s1 & n1 & s2 & c1 & -> & Hp).
      exists (x :: pre), s1, n1, s2, c1. split; [reflexivity|].
      simpl. now rewrite plus_n_Sm.
Qed.

Lemma search_skips ic r x s n :
  m ic r n (x :: s) [] (fun n' _ c => Some (set_cap 0 (firstn (n' - n) (x :: s)) c))
  = None ->
  search ic r n (x :: s) = search ic r (S n) s.
Proof. intros H. simpl. now rewrite H. Qed.

(** A literal string, matched with or without the [i] flag, consumes as many
    characters as it has, each equal to its own up to the flag. *)
Lemma lits_paths_any ic : forall p n s c n1 s1 c1,
  matches ic (lits p) n s c n1 s1 c1 ->
  exists q, s = q ++ s1 /\ Forall2 (fun a x => lit_eq ic a x = true) p q
            /\ n1 = (List.length p + n)%nat /\ c1 = c.
Proof.
  induction p as [|a p IH]; intros n s c n1 s1 c1 H; simpl in H.
  - inversion H; subst. exists []. auto.
  - inversion H as [| | | | ? ? ? ? ? n2 s2 c2 ? ? ? HL HR | | | | | ]; subst.
    inversion HL; subst.
    apply IH in HR. destruct HR as (q & -> & Hq & -> & ->).
    eexists (_ :: q). simpl. rewrite <- plus_n_Sm. auto.
Qed.

Lemma has_char_app c a b :
  has_char c (a ++ b) = has_char c a || has_char c b.
Proof. unfold has_char. apply existsb_app. Qed.

Lemma has_char_cons c x s :
  has_char c (x :: s) = (c =? x) || has_char c s.
Proof. reflexivity. Qed.

(** Decide [has_char] on a list that shows the character. *)
Ltac find_char H :=
  repeat (rewrite ?has_char_app, ?has_char_cons, ?N.eqb_refl in H;
          cbn [orb] in H; rewrite ?orb_true_r in H);
  try discriminate H.

(** Spell out the literal strings of a hypothesis and take the matching of
    a literal apart, character by character. *)
Ltac spell H :=
  repeat match type of H with
         | context [js ?t] =>
             let v := eval vm_compute in (js t) in
             change (js t) with v in H
         end.

Ltac letters :=
  repeat match goal with
         | H : Forall2 _ (js _) _ |- _ => spell H
         | H : Forall2 _ (_ :: _) _ |- _ => inversion H; subst; clear H
         | H : Forall2 _ [] _ |- _ => inversion H; subst; clear H
         end.

(** A character that has no letter case is matched by itself alone. *)
Lemma caseless_lit ic (a x : char) :
  ascii_upper a = a -> (a <? 65) || (90 <? a) = true ->
  lit_eq ic a x = true -> x = a.
Proof.
  intros Ha Hr H. unfold lit_eq in H. destruct ic.
  - apply N.eqb_eq in H. rewrite Ha in H. unfold ascii_upper in H.
    destruct ((97 <=? x) && (x <=? 122)) eqn:E; [|assumption].
    apply andb_prop in E. destruct E as [E1 E2].
    apply N.leb_le in E1. apply N.leb_le in E2.
    apply orb_prop in Hr. destruct Hr as [Hr | Hr]; apply N.ltb_lt in Hr; lia.
  - now apply N.eqb_eq in H.
Qed.

(** Both patterns need an equals sign, the first also an asterisk. *)
Lemma utf8_needs (c : char) s :
  c = 42 \/ c = 61 ->
  has_char c s = false ->
  str_match s Part000.utf8FilenameRegex = None.
Proof.
  intros Hc Hs.
  destruct (str_match s Part000.utf8FilenameRegex) eqn:E; [|reflexivity].
  exfalso.
  unfold str_match, Part000.utf8FilenameRegex, source, ignoreCase in E.
  apply search_sound in E.
  destruct E as (pre & s1 & n1 & s2 & c1 & -> & Hp).
  rewrite has_char_app in Hs. apply orb_false_elim in Hs.
  destruct Hs as [_ Hs]. revert Hp. generalize (List.length pre + 0)%nat.
  intros n Hp.
  inversion Hp as [| | | | ? ? ? ? ? na sa ca ? ? ? H1 H2 | | | | | ]; subst.
  apply lits_paths_any in H1. destruct H1 as (q & -> & Hq & -> & ->).
  inversion H2 as [| | | | ? ? ? ? ? nb sb cb ? ? ? H3 H4 | | | | | ]; subst.
  inversion H3; subst.
  inversion H4 as [| | | | ? ? ? ? ? nc sc cc ? ? ? H5 H6 | | | | | ]; subst.
  apply lits_paths_any in H5. destruct H5 as (q2 & -> & Hq2 & -> & ->).
  letters.
  repeat match goal with
         | H : lit_eq true 42 _ = true |- _ =>
             apply caseless_lit in H; [subst | reflexivity | reflexivity]
         | H : lit_eq true 61 _ = true |- _ =>
             apply caseless_lit in H; [subst | reflexivity | reflexivity]
         end.
  destruct Hc as [-> | ->]; find_char Hs.
Qed.

Lemma plain_needs_equals s :
  has_char 61 s = false ->
  str_match s Part000.plainFilenameRegex = None.
Proof.
  intros Hs.
  destruct (str_match s Part000.plainFilenameRegex) eqn:E; [|reflexivity].
  exfalso.
  unfold str_match, Part000.plainFilenameRegex, source, ignoreCase in E.
  apply search_sound in E.
  destruct E as (pre & s1 & n1 & s2 & c1 & -> & Hp).
  rewrite has_char_app in Hs. apply orb_false_elim in Hs.
  destruct Hs as [_ Hs]. revert Hp. generalize (List.length pre + 0)%nat.
  intros n Hp.
  inversion Hp as [| | | | ? ? ? ? ? na sa ca ? ? ? H1 H2 | | | | | ]; subst.
  apply lits_paths_any in H1. destruct H1 as (q & -> & Hq & -> & ->).
  letters.
  repeat match goal with
         | H : lit_eq false 61 _ = true |- _ =>
             apply caseless_lit in H; [subst | reflexivity | reflexivity]
         end.
  find_char Hs.
Qed.

(** A string is cut at the first occurrence of a character in one way. *)
Lemma first_occurrence_unique c : forall u u' v v',
  has_char c u = false -> has_char c u' = false ->
  u ++ c :: v = u' ++ c :: v' -> u = u'.
Proof.
  induction u as [|x u IH]; intros [|y u'] v v' Hu Hu' E; simpl in E.
  - reflexivity.
  - inversion E; subst. rewrite has_char_cons, N.eqb_refl in Hu'. discriminate.
  - inversion E; subst. rewrite has_char_cons, N.eqb_refl in Hu. discriminate.
  - inversion E; subst. rewrite has_char_cons in Hu, Hu'.
    apply orb_false_elim in Hu. apply orb_false_elim in Hu'.
    f_equal. eapply IH; [apply Hu | apply Hu' | eassumption].
Qed.

Lemma search_hit ic r n s res :
  m ic r n s [] (fun n' _ c => Some (set_cap 0 (firstn (n' - n) s) c))
  = Some res ->
  search ic r n s = Some res.
Proof. intros H. destruct s; simpl; now rewrite H. Qed.

Lemma lacks_forallb c s :
  has_char c s = false -> forallb (not_char c) s = true.
Proof.
  induction s as [|x s IH]; [reflexivity|].
  rewrite has_char_cons. intros H. apply orb_false_elim in H.
  destruct H as [Hx Hs]. cbn [forallb]. unfold not_char at 1.
  rewrite N.eqb_sym, Hx. simpl. auto.
Qed.

(** The branch of the code taken for a header that is not empty. *)
Lemma filename_of_header h :
  h <> [] ->
  Part000.filename_of_disposition (Some h)
  = match truthy_cap (str_match h Part000.utf8FilenameRegex) 1 with
    | Some enc =>
        match URI.decodeURIComponent enc with
        | Some f => Some f
        | None => Some enc
        end
    | None => truthy_cap (str_match h Part000.plainFilenameRegex) 1
    end.
Proof.
  destruct h as [|x d]; [congruence|]. intros _. simpl.
  destruct (truthy_cap (str_match (x :: d) Part000.utf8FilenameRegex) 1);
    [reflexivity|].
  now destruct (truthy_cap (str_match (x :: d) Part000.plainFilenameRegex) 1).
Qed.

(** Before the first equals sign the plain pattern finds nothing. *)
Lemma plain_scan : forall pre n T,
  has_char 61 pre = false ->
  search false (source Part000.plainFilenameRegex) n
    (pre ++ js "filename=" ++ T)
  = search false (source Part000.plainFilenameRegex) (List.length pre + n)
      (js "filename=" ++ T).
Proof.
  induction pre as [|x pre IH]; intros n T Hp; [reflexivity|].
  change ((x :: pre) ++ js "filename=" ++ T)
    with (x :: (pre ++ js "filename=" ++ T)).
  rewrite has_char_cons in Hp. pose proof Hp as Hp0.
  apply orb_false_elim in Hp. destruct Hp as [Hx Hp].
  rewrite search_skips.
  - rewrite IH by assumption.
    replace (List.length (x :: pre) + n)%nat
      with (List.length pre + S n)%nat by (simpl; lia).
    reflexivity.
  - match goal with |- ?t = None => destruct t eqn:E; [|reflexivity] end.
    exfalso. apply m_sound in E. destruct E as (n1 & s1 & c1 & Hm & _).
    unfold Part000.plainFilenameRegex, source in Hm.
    inversion Hm as [| | | | ? ? ? ? ? na sa ca ? ? ? H1 H2 | | | | | ]; subst.
    apply lits_paths_any in H1. destruct H1 as (q & Hq & Hl & -> & ->).
    letters.
    repeat match goal with
           | H : lit_eq false _ _ = true |- _ =>
               unfold lit_eq in H; apply N.eqb_eq in H; subst
           end.
    assert ((x :: pre) ++ js "filename" = js "filename") as Habs.
    { eapply (@first_occurrence_unique 61 _ _ T sa).
      - rewrite has_char_app, has_char_cons, Hp0. reflexivity.
      - reflexivity.
      - rewrite <- app_assoc. exact Hq. }
    apply (f_equal (@List.length _)) in Habs.
    rewrite length_app in Habs. simpl in Habs. lia.
Qed.

(** Run the greedy class [p] of the goal over [d :: ds0], given that group
    [i] of every result of the continuation is [d :: ds0]. *)
Ltac run_greedy i d ds0 Hds :=
  match goal with
  | |- context [star ?p ?n (ds0 ++ ?s) ?c ?k] =>
      let Hr := fresh "Hr" in
      let Hc := fresh "Hc" in
      let r := fresh "r" in
      assert (exists r, k (List.length ds0 + n)%nat s c = Some r
                        /\ cap i r = Some (d :: ds0)) as (r & Hr & Hc);
      [ | rewrite (@star_greedy p ds0 s n c k r Hds); [ | | exact Hr];
          [ cbn -[firstn cap]; exists r; split; [reflexivity | exact Hc] | ] ]
  end.

(** At [filename=] the plain pattern takes an optional quote and then
    everything up to the next quote or the end. *)
Lemma plain_hit n (q : jsstring) (b0 : char) (body rest : jsstring) :
  q = [] \/ q = [34] ->
  has_char 34 (b0 :: body) = false ->
  rest = [] \/ (exists rest', rest = 34 :: rest') ->
  exists r,
    search false (source Part000.plainFilenameRegex) n
      (js "filename=" ++ q ++ (b0 :: body) ++ rest) = Some r
    /\ cap 1 r = Some (b0 :: body).
Proof.
  intros Hq Hb Hrest.
  rewrite has_char_cons in Hb. apply orb_false_elim in Hb.
  destruct Hb as [Hb0 Hbody]. apply lacks_forallb in Hbody.
  assert ((b0 =? 34) = false) as Hb1 by (now rewrite N.eqb_sym).
  assert (not_char 34 b0 = true) as Hb2 by (unfold not_char; now rewrite Hb1).
  assert (exists r,
            m false (source Part000.plainFilenameRegex) n
              (js "filename=" ++ q ++ (b0 :: body) ++ rest) []
              (fun n' _ c =>
                 Some (set_cap 0
                         (firstn (n' - n)
                            (js "filename=" ++ q ++ (b0 :: body) ++ rest)) c))
            = Some r /\ cap 1 r = Some (b0 :: body)) as (r & Hr & Hc).
  { unfold Part000.plainFilenameRegex, source.
    destruct Hq as [-> | ->];
      cbn -[firstn cap]; unfold lit_eq; rewrite ?Hb1, ?Hb2; cbn -[firstn cap];
      run_greedy 1%nat b0 body Hbody;
      try (destruct Hrest as [-> | (rest' & ->)];
           cbn -[firstn]; eexists; (split; [reflexivity|]);
           cbn; f_equal; apply firstn_group; reflexivity);
      try (destruct Hrest as [-> | (rest' & ->)]; [exact I | reflexivity]). }
  exists r. split; [apply search_hit; exact Hr | exact Hc].
Qed.

(** Under the [i] flag only an asterisk matches an asterisk. *)
Lemma star_only_for_star (a x : char) :
  lit_eq true a x = true -> (a =? 42) = false -> (42 =? x) = false.
Proof.
  intros H Ha. apply N.eqb_neq. intros <-. apply N.eqb_neq in Ha.
  apply Ha. unfold lit_eq in H. apply N.eqb_eq in H.
  unfold ascii_upper in H. simpl in H.
  destruct ((97 <=? a) && (a <=? 122)) eqn:E; [|congruence].
  apply andb_prop in E. destruct E as [E1 E2].
  apply N.leb_le in E1. apply N.leb_le in E2. lia.
Qed.

(** Before the first asterisk the [filename*] pattern finds nothing. *)
Lemma utf8_scan : forall pre n T,
  has_char 42 pre = false ->
  search true (source Part000.utf8FilenameRegex) n
    (pre ++ js "filename*" ++ T)
  = search true (source Part000.utf8FilenameRegex) (List.length pre + n)
      (js "filename*" ++ T).
Proof.
  induction pre as [|x pre IH]; intros n T Hp; [reflexivity|].
  change ((x :: pre) ++ js "filename*" ++ T)
    with (x :: (pre ++ js "filename*" ++ T)).
  pose proof Hp as Hp0. rewrite has_char_cons in Hp.
  apply orb_false_elim in Hp. destruct Hp as [Hx Hp].
  rewrite search_skips.
  - rewrite IH by assumption.
    replace (List.length (x :: pre) + n)%nat
      with (List.length pre + S n)%nat by (simpl; lia).
    reflexivity.
  - match goal with |- ?t = None => destruct t eqn:E; [|reflexivity] end.
    exfalso. apply m_sound in E. destruct E as (n1 & s1 & c1 & Hm & _).
    unfold Part000.utf8FilenameRegex, source in Hm.
    inversion Hm as [| | | | ? ? ? ? ? na sa ca ? ? ? H1 H2 | | | | | ]; subst.
    apply lits_paths_any in H1. destruct H1 as (q & Hq & Hl & -> & ->).
    letters.
    repeat match goal with
           | H : lit_eq true 42 _ = true |- _ =>
               apply caseless_lit in H; [subst | reflexivity | reflexivity]
           | H : lit_eq true _ _ = true |- _ =>
               apply star_only_for_star in H; [|reflexivity]
           end.
    match type of Hq with
    | _ = [?a; ?b; ?c; ?d; ?e; ?f; ?g; ?h; 42] ++ _ =>
        assert ((x :: pre) ++ js "filename" = [a; b; c; d; e; f; g; h])
          as Habs
    end.
    { eapply (@first_occurrence_unique 42 _ _ T sa).
      - rewrite has_char_app, Hp0. reflexivity.
      - rewrite !has_char_cons.
        repeat match goal with H : (42 =? _) = false |- _ =>
                 rewrite H; clear H end.
        reflexivity.
      - rewrite <- app_assoc. exact Hq. }
    apply (f_equal (@List.length _)) in Habs.
    rewrite length_app in Habs. simpl in Habs. lia.
Qed.

(** At [filename*=UTF-8''] the pattern takes everything up to the next
    semicolon or the end. *)
Lemma utf8_hit n (e0 : char) (enc rest : jsstring) :
  has_char 59 (e0 :: enc) = false ->
  rest = [] \/ (exists rest', rest = 59 :: rest') ->
  exists r,
    search true (source Part000.utf8FilenameRegex) n
      (js "filename*" ++ js "=UTF-8''" ++ (e0 :: enc) ++ rest) = Some r
    /\ cap 1 r = Some (e0 :: enc).
Proof.
  intros Hb Hrest.
  rewrite has_char_cons in Hb. apply orb_false_elim in Hb.
  destruct Hb as [Hb0 Henc]. apply lacks_forallb in Henc.
  assert (not_char 59 e0 = true) as Hb2
    by (unfold not_char; now rewrite N.eqb_sym, Hb0).
  assert (exists r,
            m true (source Part000.utf8FilenameRegex) n
              (js "filename*" ++ js "=UTF-8''" ++ (e0 :: enc) ++ rest) []
              (fun n' _ c =>
                 Some (set_cap 0
                         (firstn (n' - n)
                            (js "filename*" ++ js "=UTF-8''"
                             ++ (e0 :: enc) ++ rest)) c))
            = Some r /\ cap 1 r = Some (e0 :: enc)) as (r & Hr & Hc).
  { unfold Part000.utf8FilenameRegex, source.
    cbn -[firstn cap]; rewrite ?Hb2; cbn -[firstn cap].
    run_greedy 1%nat e0 enc Henc.
    - destruct Hrest as [-> | (rest' & ->)];
        cbn -[firstn]; eexists; (split; [reflexivity|]);
        cbn; f_equal; apply firstn_group; reflexivity.
    - destruct Hrest as [-> | (rest' & ->)]; [exact I | reflexivity]. }
  exists r. split; [apply search_hit; exact Hr | exact Hc].
Qed.

Lemma decode_tokens_raw s :
  URI.decode_tokens (List.map URI.Raw s) = Some s.
Proof. induction s as [|x s IH]; simpl; [reflexivity | now rewrite IH]. Qed.

Lemma tokens_raw s :
  has_char 37 s = false -> URI.tokens s = Some (List.map URI.Raw s).
Proof.
  induction s as [|x s IH]; [reflexivity|].
  rewrite has_char_cons. intros H. apply orb_false_elim in H.
  destruct H as [Hx Hs]. cbn [URI.tokens List.map].
  rewrite N.eqb_sym, Hx, (IH Hs). reflexivity.
Qed.

End HeaderFacts.

Import HeaderFacts.

(** X13.  A header whose first equals sign belongs to [filename=], and which
    has no asterisk, names the file by what follows an optional double quote
    up to the next double quote or the end of the header.  The quotes are
    left out; without quotes everything that follows is taken, further
    parameters included. *)
Theorem plain_filename_in_general (pre q body rest : jsstring) sid :
  has_char 61 pre = false ->
  has_char 42 (pre ++ js "filename=" ++ q ++ body ++ rest) = false ->
  q = [] \/ q = [34] ->
  body <> [] ->
  has_char 34 body = false ->
  rest = [] \/ (exists rest', rest = 34 :: rest') ->
  Part000.filename_or_fallback
    (Part000.filename_of_disposition
       (Some (pre ++ js "filename=" ++ q ++ body ++ rest))) sid
  = body.
Proof.
  intros Hpre Hstar Hq Hne Hb Hrest.
  destruct body as [|b0 body]; [congruence|].
  rewrite filename_of_header
    by (destruct pre; simpl; discriminate).
  rewrite (@utf8_needs 42 _ (or_introl eq_refl) Hstar).
  unfold str_match at 1. cbn [truthy_cap Part000.plainFilenameRegex ignoreCase].
  change (source {| source := ?a; ignoreCase := ?b |}) with a.
  pose proof (@plain_scan pre 0 (q ++ (b0 :: body) ++ rest) Hpre) as Hs.
  rewrite Hs.
  destruct (@plain_hit (List.length pre + 0) q b0 body rest Hq Hb Hrest)
    as (r & Hr & Hc).
  rewrite Hr.
  cbn [truthy_cap]. rewrite Hc. reflexivity.
Qed.

Lemma plain_filename_in_general_witness :
  Part000.filename_or_fallback
    (Part000.filename_of_disposition
       (Some (js "attachment; filename=my tale.epub; size=3")))
    (JStr (js "999"))
  = js "my tale.epub; size=3".
Proof.
  apply (@plain_filename_in_general (js "attachment; ") []
           (js "my tale.epub; size=3") [] (JStr (js "999"))).
  - reflexivity.
  - reflexivity.
  - left. reflexivity.
  - discriminate.
  - reflexivity.
  - left. reflexivity.
Defined.

(** X14.  A header whose first asterisk belongs to [filename*=UTF-8''] names
    the file by what follows up to the next semicolon or the end, percent
    decoded; when that does not decode (a URIError) it is taken as it
    stands.  A plain [filename=] before or after it is not looked at. *)
Theorem utf8_filename_in_general (pre enc rest : jsstring) :
  has_char 42 pre = false ->
  enc <> [] ->
  has_char 59 enc = false ->
  rest = [] \/ (exists rest', rest = 59 :: rest') ->
  Part000.filename_of_disposition
    (Some (pre ++ js "filename*=UTF-8''" ++ enc ++ rest))
  = Some (match URI.decodeURIComponent enc with
          | Some f => f
          | None => enc
          end).
Proof.
  intros Hpre Hne Hb Hrest.
  destruct enc as [|e0 enc]; [congruence|].
  rewrite filename_of_header
    by (destruct pre; simpl; discriminate).
  unfold str_match at 1.
  cbn [Part000.utf8FilenameRegex ignoreCase].
  change (source {| source := ?a; ignoreCase := ?b |}) with a.
  pose proof (@utf8_scan pre 0 (js "=UTF-8''" ++ (e0 :: enc) ++ rest) Hpre)
    as Hs.
  change (pre ++ js "filename*=UTF-8''" ++ (e0 :: enc) ++ rest)
    with (pre ++ js "filename*" ++ js "=UTF-8''" ++ (e0 :: enc) ++ rest).
  rewrite Hs.
  destruct (@utf8_hit (List.length pre + 0) e0 enc rest Hb Hrest)
    as (r & Hr & Hc).
  rewrite Hr.
  cbn [truthy_cap]. rewrite Hc.
  destruct (URI.decodeURIComponent (e0 :: enc)); reflexivity.
Qed.

Lemma utf8_filename_in_general_witness :
  Part000.filename_of_disposition
    (Some (js "attachment; filename=" ++ [34] ++ js "x.epub" ++ [34]
           ++ js "; filename*=UTF-8''50%25%20off.epub; size=3"))
  = Some (js "50% off.epub").
Proof.
  apply (@utf8_filename_in_general
           (js "attachment; filename=" ++ [34] ++ js "x.epub" ++ [34]
            ++ js "; ")
           (js "50%25%20off.epub") (js "; size=3")).
  - reflexivity.
  - discriminate.
  - reflexivity.
  - right. eexists. reflexivity.
Defined.

(** X15.  Without a header, with an empty one, or with one that has no
    equals sign, the file is called story-<id>.epub, for a story id that is
    a string, or a number that is a safe integer (or any other value whose
    printing prints safe integers only). *)
Theorem fallback_filename disposition sid :
  match disposition with
  | Some h => has_char 61 h = false
  | None => True
  end ->
  safe_numbers sid = true ->
  Part000.filename_or_fallback
    (Part000.filename_of_disposition disposition) sid
  = js "story-" ++ to_string sid ++ js ".epub".
Proof.
  destruct disposition as [[|x h]|]; intros H _; try reflexivity.
  rewrite filename_of_header by discriminate.
  rewrite (@utf8_needs 61 _ (or_intror eq_refl) H).
  rewrite (plain_needs_equals _ H). reflexivity.
Qed.

Lemma fallback_filename_witness :
  Part000.filename_or_fallback
    (Part000.filename_of_disposition (Some (js "attachment")))
    (JNum 123456789)
  = js "story-123456789.epub".
Proof.
  apply (@fallback_filename (Some (js "attachment")) (JNum 123456789));
    reflexivity.
Defined.

(** X16.  [decodeURIComponent] gives back a string without percent signs as
    it is, so a [filename*] value without escapes names the file itself. *)
Theorem unescaped_value_is_kept (pre enc rest : jsstring) :
  has_char 37 enc = false ->
  URI.decodeURIComponent enc = Some enc
  /\ (has_char 42 pre = false ->
      enc <> [] ->
      has_char 59 enc = false ->
      rest = [] \/ (exists rest', rest = 59 :: rest') ->
      Part000.filename_of_disposition
        (Some (pre ++ js "filename*=UTF-8''" ++ enc ++ rest))
      = Some enc).
Proof.
  intros Hp.
  assert (URI.decodeURIComponent enc = Some enc) as Hd.
  { unfold URI.decodeURIComponent.
    rewrite (tokens_raw _ Hp). apply decode_tokens_raw. }
  split; [exact Hd|].
  intros Hpre Hne Hb Hrest.
  assert (exists r,
            search true (source Part000.utf8FilenameRegex) 0
              (pre ++ js "filename*" ++ js "=UTF-8''" ++ enc ++ rest)
            = Some r /\ cap 1 r = Some enc) as (r & Hr & Hc).
  { destruct enc as [|e0 enc]; [congruence|].
    rewrite (@utf8_scan pre 0 _ Hpre).
    apply utf8_hit; assumption. }
  rewrite filename_of_header by (destruct pre; simpl; discriminate).
  unfold str_match at 1.
  change (pre ++ js "filename*=UTF-8''" ++ enc ++ rest)
    with (pre ++ js "filename*" ++ js "=UTF-8''" ++ enc ++ rest).
  cbn [Part000.utf8FilenameRegex ignoreCase source] in *.
  rewrite Hr. cbn [truthy_cap]. rewrite Hc.
  destruct enc as [|e0 enc]; [congruence|]. rewrite Hd. reflexivity.
Qed.

Lemma unescaped_value_is_kept_witness :
  URI.decodeURIComponent (js "tale.epub") = Some (js "tale.epub")
  /\ Part000.filename_of_disposition
       (Some (js "inline; filename*=UTF-8''tale.epub"))
     = Some (js "tale.epub").
Proof.
  destruct (@unescaped_value_is_kept (js "inline; ") (js "tale.epub") []
              eq_refl) as (Hd & Hf).
  split; [exact Hd|].
  apply Hf.
  - reflexivity.
  - discriminate.
  - reflexivity.
  - left. reflexivity.
Defined.

(** *** The classifier in every world *)

(** X17.  In a build without the [chrome.tabs] API every variant takes the
    placeholder: the page counts as valid with the story id 123456789, and
    nothing is asked of the browser or the network; the popup then shows the
    download button. *)
Theorem placeholder_without_tabs_api check w st :
  In check classifiers ->
  chrome_tabs w = None ->
  check w st = (Ok tt, marked_valid (JStr (js "123456789")) st, [])
  /\ forall render, In render renderers ->
       exists heading toggle_off label,
         render (final (check w st))
         = FunctionalUI heading (embedImages st) toggle_off (isLoading st)
             label.
Proof.
  intros Hc Ht. rewrite (@development_fallback check w st Hc Ht).
  split; [reflexivity|].
  intros render Hr. unfold renderers, In in Hr.
  destruct Hr as [<- | [<- | [<- | [<- | []]]]]; do 3 eexists; reflexivity.
Qed.

Lemma placeholder_without_tabs_api_witness :
  Part000.checkUrl Cases.no_tabs_api initial
  = (Ok tt, marked_valid (JStr (js "123456789")) initial, []).
Proof.
  apply (@placeholder_without_tabs_api Part000.checkUrl).
  - left. reflexivity.
  - reflexivity.
Defined.

(** X18.  When the tab query is refused, [checkUrl] fails with that error
    and touches nothing: the popup keeps showing what it showed, and no
    request is sent. *)
Theorem refused_query_leaves_the_popup check w st e :
  In check chapter_classifiers ->
  chrome_tabs w = Some (inl e) ->
  check w st = (Throw e, st, [TabsQuery]).
Proof.
  intros Hc Ht. apply in_chapter_classifiers in Hc. destruct Hc as (api & ->).
  unfold checkUrl_with. rewrite Ht. run_monad. reflexivity.
Qed.

Lemma refused_query_leaves_the_popup_witness :
  Part000.checkUrl Cases.query_refused initial
  = (Throw (Error (js "No current window")), initial, [TabsQuery])
  /\ Part000.render initial = Loading.
Proof.
  split; [|reflexivity].
  apply (@refused_query_leaves_the_popup Part000.checkUrl).
  - left. reflexivity.
  - reflexivity.
Defined.

Lemma not_http url :
  match url with [] => True | x :: _ => x <> 104 end ->
  truthy_cap (str_match url wattpadStoryRegex) 1 = None
  /\ truthy_cap (str_match url wattpadStoryPartRegex) 1 = None
  /\ truthy_cap (str_match url AppTsx.wattpadStoryRegex) 2 = None.
Proof.
  intros H.
  rewrite (@str_match_bol wattpadStoryRegex _ _ eq_refl),
          (@str_match_bol wattpadStoryPartRegex _ _ eq_refl),
          (@str_match_bol AppTsx.wattpadStoryRegex _ _ eq_refl).
  destruct url as [|x u]; [repeat split|].
  apply N.eqb_neq in H.
  cbn -[firstn]; unfold lit_eq; rewrite H. repeat split.
Qed.

(** X19.  When there is no active tab, the tab hides its address, or the
    address does not start with the letter h (about:blank, chrome://...,
    file://...), every variant marks the page invalid without a request. *)
Theorem non_http_address_is_invalid check w st tabs :
  In check classifiers ->
  chrome_tabs w = Some (inr tabs) ->
  match first_tab_url tabs with [] => True | x :: _ => x <> 104 end ->
  check w st = (Ok tt, marked_invalid st, [TabsQuery]).
Proof.
  intros Hc Ht Hu. destruct (not_http _ Hu) as (H1 & H2 & H3).
  unfold classifiers in Hc. apply in_app_or in Hc.
  destruct Hc as [Hc | [<- | []]].
  - apply in_chapter_classifiers in Hc. destruct Hc as (api & ->).
    apply (@checkUrl_other api w st tabs Ht H1 H2).
  - rewrite (app_checkUrl w st Ht), H3. reflexivity.
Qed.

Lemma non_http_address_is_invalid_witness :
  Part000.checkUrl Cases.hidden_tab initial
  = (Ok tt, marked_invalid initial, [TabsQuery]).
Proof.
  apply (@non_http_address_is_invalid Part000.checkUrl Cases.hidden_tab
           initial [{| tab_url := None |}]).
  - left. reflexivity.
  - reflexivity.
  - exact I.
Defined.

Lemma truthy_cap_nonempty mt i id :
  truthy_cap mt i = Some id -> truthy (JStr id) = true.
Proof.
  unfold truthy_cap. destruct mt as [c|]; [|discriminate].
  destruct (cap i c) as [[|x s]|]; try discriminate.
  intros E. inversion E. reflexivity.
Qed.

(** The end of a classification whose tab query is answered. *)
Lemma classified check w st tabs :
  In check classifiers ->
  chrome_tabs w = Some (inr tabs) ->
  final (check w st) = marked_invalid st
  \/ exists v, truthy v = true /\ final (check w st) = marked_valid v st.
Proof.
  intros Hc Ht. unfold classifiers in Hc. apply in_app_or in Hc.
  destruct Hc as [Hc | [<- | []]].
  - apply in_chapter_classifiers in Hc. destruct Hc as (api & ->).
    destruct (truthy_cap (str_match (first_tab_url tabs) wattpadStoryRegex) 1)
      as [id|] eqn:Hs.
    + right. exists (JStr id). split; [eapply truthy_cap_nonempty; eauto|].
      rewrite (checkUrl_direct api w st Ht Hs). reflexivity.
    + destruct (truthy_cap (str_match (first_tab_url tabs)
                              wattpadStoryPartRegex) 1) as [pid|] eqn:Hp.
      * destruct (@checkUrl_part api w st tabs pid Ht Hs Hp) as (_ & _ & Hf).
        rewrite Hf.
        destruct (fetch_result w (lookup_request w pid)) as [e|r]; auto.
        destruct (ok r); auto. destruct (json r) as [e|data]; auto.
        destruct (truthy (get_prop data (js "groupId"))) eqn:Hg; eauto.
      * left. rewrite (@checkUrl_other api w st tabs Ht Hs Hp). reflexivity.
  - rewrite (app_checkUrl w st Ht).
    destruct (truthy_cap _ 2) as [id|] eqn:Hm; [right | left; reflexivity].
    exists (JStr id). split; [eapply truthy_cap_nonempty; eauto | reflexivity].
Qed.

(** X20.  Unless the tab query is refused, a classification always decides:
    the popup never stays on the loading view, whatever the address is and
    whatever the lookup answers. *)
Theorem classification_decides check w st :
  In check classifiers ->
  (forall e, chrome_tabs w <> Some (inl e)) ->
  isValidPage (final (check w st)) <> None
  /\ forall render, In render renderers ->
       render (final (check w st)) <> Loading.
Proof.
  intros Hc Ht.
  assert (isValidPage (final (check w st)) <> None) as Hv.
  { destruct (chrome_tabs w) as [[e|tabs]|] eqn:E.
    - exfalso. apply (Ht e). reflexivity.
    - destruct (@classified check w st tabs Hc E) as [-> | (v & _ & ->)];
        discriminate.
    - rewrite (@development_fallback check w st Hc E). discriminate. }
  split; [exact Hv|].
  intros render Hr. unfold renderers, In in Hr.
  destruct Hr as [<- | [<- | [<- | [<- | []]]]];
    unfold Part000.render, Part001.render, Part002.render, AppTsx.render,
      Native.render, render_with;
    destruct (isValidPage (final (check w st))) as [[|]|];
    try discriminate; congruence.
Qed.

Lemma classification_decides_witness :
  isValidPage (final (Part000.checkUrl Examples.chapter_offline initial))
  <> None.
Proof.
  apply (@classification_decides Part000.checkUrl Examples.chapter_offline
           initial).
  - left. reflexivity.
  - intros e. discriminate.
Defined.

(** X21.  The story id goes with the classification: when a classification
    ends valid, the story id it has set is truthy (a non-empty string of the
    address, or the truthy [groupId] of the lookup); when it ends invalid,
    the story id is the one from before. *)
Theorem story_id_goes_with_valid check w st :
  In check classifiers ->
  (forall e, chrome_tabs w <> Some (inl e)) ->
  (isValidPage (final (check w st)) = Some true ->
   truthy (storyId (final (check w st))) = true)
  /\ (isValidPage (final (check w st)) = Some false ->
      storyId (final (check w st)) = storyId st).
Proof.
  intros Hc Ht.
  destruct (chrome_tabs w) as [[e|tabs]|] eqn:E.
  - exfalso. apply (Ht e). reflexivity.
  - destruct (@classified check w st tabs Hc E) as [-> | (v & Hv & ->)];
      split; intros H; try discriminate; auto.
  - rewrite (@development_fallback check w st Hc E).
    split; intros H; [reflexivity | discriminate].
Qed.

Lemma story_id_goes_with_valid_witness :
  truthy (storyId (final (Part000.checkUrl Examples.chapter_of_999 initial)))
  = true.
Proof.
  destruct (@story_id_goes_with_valid Part000.checkUrl
              Examples.chapter_of_999 initial) as (Hv & _).
  - left. reflexivity.
  - intros e. discriminate.
  - apply Hv. reflexivity.
Defined.

(** Case analysis on everything a classifier asks of the world. *)
Ltac split_classification w tabs :=
  run_monad;
  repeat match goal with
         | |- context [truthy_cap ?mt ?i] =>
             destruct (truthy_cap mt i) eqn:?; run_monad
         | |- context [fetch_result ?w ?q] =>
             destruct (fetch_result w q) eqn:?; run_monad
         | |- context [ok ?r] => destruct (ok r) eqn:?; cbv [negb]; run_monad
         | |- context [text ?r] => destruct (text r) eqn:?; run_monad
         | |- context [json ?r] => destruct (json r) eqn:?; run_monad
         | |- context [truthy (js_and ?a ?b)] =>
             destruct (truthy (js_and a b)) eqn:?; run_monad
         end.

(** X22.  In every world a classification leaves the image setting and the
    busy flag as they were, and its effects are the tab query, console
    output and at most one request, a GET without a body; it never shows an
    alert, never reads cookies and never saves anything. *)
Theorem classification_is_quiet check w st :
  In check classifiers ->
  embedImages (final (check w st)) = embedImages st
  /\ isLoading (final (check w st)) = isLoading st
  /\ forallb classifier_effect (trace (check w st)) = true
  /\ (List.length (requests (trace (check w st))) <= 1)%nat
  /\ (forall req, In req (requests (trace (check w st))) ->
        req_method req = GET /\ req_body req = None).
Proof.
  intros Hc. unfold classifiers in Hc. apply in_app_or in Hc.
  destruct Hc as [Hc | [<- | []]].
  - apply in_chapter_classifiers in Hc. destruct Hc as (api & ->).
    unfold checkUrl_with.
    destruct (chrome_tabs w) as [[e|tabs]|]; split_classification w tabs;
      observe_all; cbn [forallb classifier_effect andb];
      (split; [reflexivity|]; split; [reflexivity|]; split; [reflexivity|];
       split; [simpl; lia|];
       intros req Hin; cbn [In] in Hin; intuition (subst; reflexivity)).
  - unfold AppTsx.checkUrl.
    destruct (chrome_tabs w) as [[e|tabs]|]; split_classification w tabs;
      observe_all; cbn [forallb classifier_effect andb];
      (split; [reflexivity|]; split; [reflexivity|]; split; [reflexivity|];
       split; [simpl; lia|];
       intros req Hin; cbn [In] in Hin; intuition (subst; reflexivity)).
Qed.

Lemma classification_is_quiet_witness :
  forallb classifier_effect
    (trace (Part001.checkUrl Examples.chapter_of_999 initial)) = true
  /\ (List.length (requests (trace (Part001.checkUrl Examples.chapter_of_999
                                      initial))) <= 1)%nat.
Proof.
  destruct (@classification_is_quiet Part001.checkUrl Examples.chapter_of_999
              initial) as (_ & _ & Hq & Hn & _).
  - right. left. reflexivity.
  - split; [exact Hq | exact Hn].
Defined.

(** *** The patterns *)

Lemma truthy_cap_some mt i id :
  truthy_cap mt i = Some id -> exists res, mt = Some res.
Proof. destruct mt; [eauto | discriminate]. Qed.

(** X23.  The two patterns of the variants with chapter support accept
    exactly the two shapes of address, and what they capture is the whole
    run of digits: the story pattern accepts
    scheme://[www.]wattpad.com/story/digits-rest and nothing else, the
    chapter pattern scheme://[www.]wattpad.com/digits followed by no further
    digit and nothing else. *)
Theorem patterns_accept_exactly url id :
  (truthy_cap (str_match url wattpadStoryRegex) 1 = Some id
   <-> direct_story_url url id)
  /\ (truthy_cap (str_match url wattpadStoryPartRegex) 1 = Some id
      <-> story_part_url url id).
Proof.
  split; split.
  - intros H. destruct (truthy_cap_some _ _ H) as (res & Hres).
    apply story_match_inv in Hres. destruct Hres as (ds & Hd).
    pose proof (story_match Hd) as Hm. congruence.
  - apply story_match.
  - intros H. destruct (truthy_cap_some _ _ H) as (res & Hres).
    apply part_match_inv in Hres. destruct Hres as (ds & Hd).
    pose proof (part_match Hd) as Hm. congruence.
  - apply part_match.
Qed.

(** X24.  The one pattern of [App.tsx] accepts exactly the addresses
    scheme://[www.]wattpad.com/story/digits followed by no further digit,
    and captures those digits; so it accepts every direct story URL, with
    the same story id, and no chapter URL. *)
Theorem app_pattern_accepts_exactly url id :
  (truthy_cap (str_match url AppTsx.wattpadStoryRegex) 2 = Some id
   <-> story_prefix_url url id)
  /\ (truthy_cap (str_match url wattpadStoryRegex) 1 = Some id ->
      truthy_cap (str_match url AppTsx.wattpadStoryRegex) 2 = Some id)
  /\ (truthy_cap (str_match url wattpadStoryPartRegex) 1 = Some id ->
      truthy_cap (str_match url AppTsx.wattpadStoryRegex) 2 = None).
Proof.
  split; [split|split].
  - intros H. destruct (truthy_cap_some _ _ H) as (res & Hres).
    apply app_match_inv in Hres. destruct Hres as (ds & Hd).
    pose proof (app_prefix_match Hd) as Hm. congruence.
  - apply app_prefix_match.
  - intros H. destruct (truthy_cap_some _ _ H) as (res & Hres).
    apply story_match_inv in Hres. destruct Hres as (ds & Hd).
    pose proof (story_match Hd) as Hm.
    assert (ds = id) as -> by congruence.
    apply app_story_match, Hd.
  - intros H. destruct (truthy_cap_some _ _ H) as (res & Hres).
    apply part_match_inv in Hres. destruct Hres as (ds & Hd).
    apply (app_part_no_match Hd).
Qed.

Lemma app_pattern_accepts_exactly_witness :
  truthy_cap (str_match (js "https://www.wattpad.com/story/999-my-tale")
                AppTsx.wattpadStoryRegex) 2 = Some (js "999").
Proof.
  destruct (app_pattern_accepts_exactly
              (js "https://www.wattpad.com/story/999-my-tale") (js "999"))
    as (_ & H & _).
  apply H. reflexivity.
Defined.

(** X25.  No address matches both the story pattern and the chapter pattern,
    so the order in which [checkUrl] tries them decides nothing. *)
Theorem patterns_never_overlap url :
  truthy_cap (str_match url wattpadStoryRegex) 1 = None
  \/ truthy_cap (str_match url wattpadStoryPartRegex) 1 = None.
Proof.
  destruct (truthy_cap (str_match url wattpadStoryPartRegex) 1) as [id|] eqn:E;
    [left | right; reflexivity].
  destruct (truthy_cap_some _ _ E) as (res & Hres).
  apply part_match_inv in Hres. destruct Hres as (ds & Hd).
  apply (part_not_story Hd).
Qed.

(** *** The controls *)

(** X26.  The checkbox follows the variant: where it carries
    [disabled={isLoading}] (part_000, part_001) a click during a download
    changes nothing; where it does not (part_002, App.tsx) a click flips the
    image setting also during a download. *)
Theorem checkbox_during_a_download st :
  isValidPage st = Some true ->
  isLoading st = true ->
  (forall toggle, In toggle locking_toggles -> toggle st = (Ok tt, st, []))
  /\ (forall toggle, In toggle free_toggles ->
        toggle st = (Ok tt, with_embed (negb (embedImages st)) st, [])).
Proof.
  intros Hv Hl. split; intros toggle Ht.
  - unfold locking_toggles, In in Ht.
    destruct Ht as [<- | [<- | []]];
      unfold click_toggle, Part000.render, Part001.render, render_with;
      rewrite Hv, Hl; reflexivity.
  - unfold free_toggles, In in Ht.
    destruct Ht as [<- | [<- | []]];
      unfold click_toggle, Part002.render, AppTsx.render, Native.render,
        render_with; rewrite Hv; reflexivity.
Qed.

Lemma checkbox_during_a_download_witness :
  click_toggle Part000.render Examples.busy = (Ok tt, Examples.busy, [])
  /\ embedImages (final (click_toggle AppTsx.render Examples.busy)) = false.
Proof.
  destruct (@checkbox_during_a_download Examples.busy eq_refl eq_refl)
    as (Hlock & Hfree).
  split.
  - apply Hlock. left. reflexivity.
  - rewrite (Hfree (click_toggle AppTsx.render)); [reflexivity|].
    right. left. reflexivity.
Defined.

(** X27.  On an idle valid page a click on the checkbox of any variant flips
    the image setting and nothing else, without any effect, and a second
    click restores the state; on a page that is not valid there is no
    checkbox and nothing happens. *)
Theorem checkbox_flips_the_setting toggle st :
  In toggle (locking_toggles ++ free_toggles) ->
  isLoading st = false ->
  (isValidPage st = Some true ->
   toggle st = (Ok tt, with_embed (negb (embedImages st)) st, [])
   /\ final (toggle (final (toggle st))) = st)
  /\ (isValidPage st <> Some true -> toggle st = (Ok tt, st, [])).
Proof.
  intros Ht Hl. unfold locking_toggles, free_toggles in Ht.
  cbn [app In] in Ht.
  destruct st as [v sid emb l]. simpl in Hl. subst l.
  destruct Ht as [<- | [<- | [<- | [<- | []]]]];
    (split;
     [ intros Hv; simpl in Hv; subst v;
       split; [reflexivity | cbn; now rewrite negb_involutive]
     | intros Hv; simpl in Hv; destruct v as [[|]|];
       [congruence | reflexivity | reflexivity] ]).
Qed.

Lemma checkbox_flips_the_setting_witness :
  click_toggle Part002.render Examples.ready
  = (Ok tt, with_embed false Examples.ready, [])
  /\ final (click_toggle Part002.render
              (final (click_toggle Part002.render Examples.ready)))
     = Examples.ready.
Proof.
  destruct (@checkbox_flips_the_setting (click_toggle Part002.render)
              Examples.ready) as (Hflip & _).
  - right. right. left. reflexivity.
  - reflexivity.
  - apply Hflip. reflexivity.
Defined.

(** X28.  On an idle valid page a click on the button runs the handler of
    the variant once, with the story id and the image setting on show; the
    run leaves the page idle and valid, so the button is enabled again under
    its label and the next click starts the next run, whatever the outcome
    of the first was. *)
Theorem button_works_again click h w st :
  In (click, h) controls ->
  isValidPage st = Some true ->
  isLoading st = false ->
  click w st = h w (storyId st) (embedImages st) st
  /\ final (click w st) = st
  /\ (forall render, In render renderers ->
        exists heading,
          render (final (click w st))
          = FunctionalUI heading (embedImages st) false false
              (js "Download Story"))
  /\ click w (final (click w st))
     = h w (storyId st) (embedImages st) (final (click w st)).
Proof.
  intros Hc Hv Hl.
  assert (click w st = h w (storyId st) (embedImages st) st
          /\ In h downloaders) as (Hrun & Hd).
  { unfold controls, In in Hc.
    destruct Hc as [E | [E | [E | [E | []]]]]; inversion E; subst;
      (split;
       [ unfold Part000.clickDownload, Part001.clickDownload,
           Part002.clickDownload, AppTsx.clickDownload, click_button,
           Part000.render, Part001.render, Part002.render, AppTsx.render,
           Native.render, render_with; rewrite Hv, Hl; reflexivity
       | unfold downloaders, plain_downloaders; simpl; auto 6 ]). }
  assert (final (click w st) = st) as Hf.
  { rewrite Hrun, (@download_ends_in_idle h w (storyId st) (embedImages st) st Hd).
    destruct st as [v sid emb l]. simpl in Hl. subst l. reflexivity. }
  split; [exact Hrun|]. split; [exact Hf|]. split.
  - intros render Hr. rewrite Hf. unfold renderers, In in Hr.
    destruct Hr as [<- | [<- | [<- | [<- | []]]]];
      unfold Part000.render, Part001.render, Part002.render, AppTsx.render,
        Native.render, render_with; rewrite Hv, Hl; eexists; reflexivity.
  - rewrite Hf. exact Hrun.
Qed.

Lemma button_works_again_witness :
  Part000.clickDownload Examples.quota_exceeded
    (final (Part000.clickDownload Examples.quota_exceeded Examples.ready))
  = Part000.handleDownload Examples.quota_exceeded (JStr (js "999")) true
      Examples.ready.
Proof.
  destruct (@button_works_again Part000.clickDownload Part000.handleDownload
              Examples.quota_exceeded Examples.ready)
    as (_ & Hf & _ & Hagain).
  - left. reflexivity.
  - reflexivity.
  - reflexivity.
  - rewrite Hagain, Hf. reflexivity.
Defined.
